(** * aider/io.py: completion engine, multiline input capture and
      chat-history transcript

    A shallow embedding of [FileContentCompleter] and [InputOutput] from
    [aider/io.py], together with the properties of the specification that
    concern them.

    Conventions of the embedding.
    - A Python [str] is a [string]; a character is a code point below 256,
      and [isspace] and [lower] are Python's on that range.
    - [self.words] is a [gset string]; [self.fname_to_rel_fnames] is a
      [gmap string (list string)] (a [defaultdict(list)] only ever holds the
      keys that [append] created).
    - The file system is a [gmap string string] from path to content:
      [open(p, "r")] fails on an absent path, [open(p, "a")] creates it.
    - A raised exception is an [inl] of type [error].
    - [get_completions] is a generator; it is embedded as the list of the
      completions it yields, paired with the completer as it is left once the
      generator is exhausted. *)

From Stdlib Require Import ZArith Ascii String List Bool Lia.
From stdpp Require Import base option list gmap strings fin_maps fin_sets.

Local Open Scope list_scope.
Local Open Scope string_scope.

(** ** Python string primitives *)

Module PyStr.

(** [str.isspace] on one character: the ASCII table of CPython
    (0x09-0x0D, 0x1C-0x1F, 0x20) plus U+0085 and U+00A0. *)
Definition isspace (c : ascii) : bool :=
  let n := nat_of_ascii c in
  (Nat.leb 9 n && Nat.leb n 13) || (Nat.leb 28 n && Nat.leb n 32)
  || Nat.eqb n 133 || Nat.eqb n 160.

(** [str.lower] on one character: A-Z, and the Latin-1 capitals
    U+00C0-U+00DE except the multiplication sign U+00D7. *)
Definition lower_char (c : ascii) : ascii :=
  let n := nat_of_ascii c in
  if (Nat.leb 65 n && Nat.leb n 90)
     || (Nat.leb 192 n && Nat.leb n 222 && negb (Nat.eqb n 215))
  then ascii_of_nat (n + 32) else c.

Fixpoint lower (s : string) : string :=
  match s with
  | EmptyString => EmptyString
  | String c s' => String (lower_char c) (lower s')
  end.

(** [s.startswith(p)] *)
Fixpoint startswith (s p : string) : bool :=
  match p, s with
  | EmptyString, _ => true
  | String _ _, EmptyString => false
  | String b p', String a s' => Ascii.eqb a b && startswith s' p'
  end.

(** [s.endswith(p)] *)
Fixpoint endswith (s p : string) : bool :=
  String.eqb s p ||
  match s with
  | EmptyString => false
  | String _ s' => endswith s' p
  end.

(** [s.lstrip()] *)
Fixpoint lstrip (s : string) : string :=
  match s with
  | EmptyString => EmptyString
  | String c s' => if isspace c then lstrip s' else s
  end.

(** [s.rstrip()] *)
Fixpoint rstrip (s : string) : string :=
  match s with
  | EmptyString => EmptyString
  | String c s' =>
      match rstrip s' with
      | EmptyString => if isspace c then EmptyString else String c EmptyString
      | r => String c r
      end
  end.

(** [s.strip()] *)
Definition strip (s : string) : string := rstrip (lstrip s).

(** [s.split()]: the maximal runs of non-whitespace characters. *)
Fixpoint split (s : string) : list string :=
  match s with
  | EmptyString => []
  | String c s' =>
      if isspace c then split s'
      else match s' with
           | EmptyString => [String c EmptyString]
           | String c' _ =>
               if isspace c' then String c EmptyString :: split s'
               else match split s' with
                    | w :: ws => String c w :: ws
                    | [] => [String c EmptyString]
                    end
           end
  end.

(** [s[0]] and [s[-1]]; [None] stands for [IndexError]. *)
Definition first_char (s : string) : option ascii :=
  match s with
  | EmptyString => None
  | String c _ => Some c
  end.

Fixpoint last_char (s : string) : option ascii :=
  match s with
  | EmptyString => None
  | String c EmptyString => Some c
  | String _ s' => last_char s'
  end.

(** [s[1:]] *)
Definition tail (s : string) : string :=
  match s with
  | EmptyString => EmptyString
  | String _ s' => s'
  end.

(** [bool(s)] *)
Definition truthy (s : string) : bool :=
  match s with
  | EmptyString => false
  | String _ _ => true
  end.

(** Every character is whitespace (true of the empty string). *)
Fixpoint all_space (s : string) : bool :=
  match s with
  | EmptyString => true
  | String c s' => isspace c && all_space s'
  end.

(** [os.path.basename] (posixpath): what follows the last slash. *)
Fixpoint has_slash (s : string) : bool :=
  match s with
  | EmptyString => false
  | String c s' => Ascii.eqb c "/" || has_slash s'
  end.

Fixpoint basename (p : string) : string :=
  match p with
  | EmptyString => EmptyString
  | String c p' => if has_slash p then basename p' else p
  end.

(** The one-character string [chr(10)]. *)
Definition nl : string := String "010" EmptyString.

(** [len(s)] as a Python [int]. *)
Definition len (s : string) : Z := Z.of_nat (String.length s).

(** [sep.join(l)] *)
Fixpoint join (sep : string) (l : list string) : string :=
  match l with
  | [] => EmptyString
  | [x] => x
  | x :: l' => x ++ sep ++ join sep l'
  end.

(** [str.splitlines]: the line boundaries below code point 256 are
    LF, VT, FF, CR, FS, GS, RS and NEL; CR LF counts as one. *)
Definition is_linebreak (c : ascii) : bool :=
  let n := nat_of_ascii c in
  (Nat.leb 10 n && Nat.leb n 13) || (Nat.leb 28 n && Nat.leb n 30)
  || Nat.eqb n 133.

Fixpoint splitlines_from (after_cr : bool) (cur s : string) : list string :=
  match s with
  | EmptyString => if truthy cur then [cur] else []
  | String c s' =>
      if after_cr && Ascii.eqb c "010" then splitlines_from false cur s'
      else if is_linebreak c
           then cur :: splitlines_from (Ascii.eqb c "013") EmptyString s'
           else splitlines_from false (cur ++ String c EmptyString) s'
  end.

Definition splitlines (s : string) : list string :=
  splitlines_from false EmptyString s.

(** [os.path.join(a, b)] (posixpath, two arguments). *)
Definition path_join (a b : string) : string :=
  if startswith b "/" then b
  else if negb (truthy a) || endswith a "/" then a ++ b
  else a ++ "/" ++ b.

End PyStr.


(** ** Data model *)

(** Exceptions that escape the modelled functions: [OSError] from [open] or
    [read], and the end of the interactive input. *)
Inductive error : Type :=
  | OSError
  | EOFError.

#[global] Instance error_eq_dec : EqDecision error.
Proof. solve_decision. Defined.

(** [prompt_toolkit.completion.Completion(text, start_position=...)] *)
Record Completion : Type := mkCompletion {
  text : string;
  start_position : Z
}.

#[global] Instance Completion_eq_dec : EqDecision Completion.
Proof. solve_decision. Defined.

(** The command registry handed to the completer: the two methods that
    [get_completions] calls on it. *)
Record Commands : Type := mkCommands {
  get_commands : list string;
  get_command_completions : string -> string -> list Completion
}.

(** A pygments token type is the path of names below [Token];
    [Token.Name] is [["Name"]], [Token.Name.Function] is
    [["Name"; "Function"]]. [ttype in Token.Name] holds for [Token.Name]
    and everything below it. *)
Definition token_type : Type := list string.

Definition in_Token_Name (t : token_type) : bool :=
  match t with
  | n :: _ => String.eqb n "Name"
  | [] => false
  end.

(** A pygments lexer: [get_tokens] yields [(ttype, value)] pairs. *)
Record Lexer : Type := mkLexer {
  get_tokens : string -> list (token_type * string)
}.

(** The file system: path to content. *)
Abbreviation filesystem := (gmap string string).

(** [class FileContentCompleter] *)
Record FileContentCompleter : Type := mkCompleter {
  commands : Commands;
  addable_rel_fnames : list string;
  rel_fnames : list string;
  fname_to_rel_fnames : gmap string (list string);
  words : gset string
}.

(** [class InputOutput], the fields the modelled methods read. *)
Record InputOutput : Type := mkInputOutput {
  pretty : bool;
  yes : bool;
  chat_history_file : option string
}.

(** ** FileContentCompleter *)

(** [fname_to_rel_fnames[fname].append(rel_fname)] on a [defaultdict(list)] *)
Definition dict_append (k v : string) (d : gmap string (list string))
  : gmap string (list string) :=
  <[k := (default [] (d !! k) ++ [v])%list]> d.

(** Body of the first loop of [__init__] (lines 25-28). *)
Definition alias_step (d : gmap string (list string)) (rel_fname : string)
  : gmap string (list string) :=
  let fname := PyStr.basename rel_fname in
  if negb (String.eqb fname rel_fname) then dict_append fname rel_fname d
  else d.

Definition build_fname_to_rel_fnames (addable : list string)
  : gmap string (list string) :=
  foldl alias_step ∅ addable.

(** Second loop of [__init__] (lines 31-33). *)
Definition add_all (ws : gset string) (l : list string) : gset string :=
  foldl (fun acc rel_fname => acc ∪ {[rel_fname]}) ws l.

(** The values of the tokens below [Token.Name] (line 46). *)
Definition name_tokens (tokens : list (token_type * string)) : list string :=
  map snd (filter (fun tok => in_Token_Name (fst tok) = true) tokens).

Section Completer.

(** [pygments.lexers.guess_lexer_for_filename]; [None] is [ClassNotFound]. *)
Variable guess_lexer_for_filename : string -> string -> option Lexer.

(** Third loop of [__init__] (lines 35-46). *)
Fixpoint index_files (fs : filesystem) (root : string) (l : list string)
    (ws : gset string) : error + gset string :=
  match l with
  | [] => inr ws
  | rel_fname :: rest =>
      let ws := ws ∪ {[rel_fname]} in
      let fname := PyStr.path_join root rel_fname in
      match fs !! fname with
      | None => inl OSError
      | Some content =>
          match guess_lexer_for_filename fname content with
          | None => index_files fs root rest ws
          | Some lexer =>
              let tokens := get_tokens lexer content in
              index_files fs root rest (ws ∪ list_to_set (name_tokens tokens))
          end
      end
  end.

(** [w] is a name token of the in-context file [rel_fname]: the file is
    read, a lexer is found for it, and [w] is the value of one of its tokens
    below [Token.Name]. *)
Definition lexed_name (fs : filesystem) (root rel_fname w : string) : Prop :=
  exists content lexer,
    fs !! PyStr.path_join root rel_fname = Some content
    /\ guess_lexer_for_filename (PyStr.path_join root rel_fname) content
       = Some lexer
    /\ w ∈ name_tokens (get_tokens lexer content).

(** [FileContentCompleter.__init__] *)
Definition completer_init (fs : filesystem) (root : string)
    (rel : list string) (addable : list string) (cmds : Commands)
  : error + FileContentCompleter :=
  let d := build_fname_to_rel_fnames addable in
  let ws := add_all ∅ addable in
  match index_files fs root rel ws with
  | inl e => inl e
  | inr ws =>
      inr {| commands := cmds;
             addable_rel_fnames := addable;
             rel_fnames := rel;
             fname_to_rel_fnames := d;
             words := ws |}
  end.

End Completer.

(** The loop of [get_completions] over the selected candidates
    (lines 65-73). *)
Fixpoint complete_candidates (d : gmap string (list string))
    (last_word : string) (candidates : list string) : list Completion :=
  match candidates with
  | [] => []
  | word :: rest =>
      if PyStr.startswith (PyStr.lower word) (PyStr.lower last_word) then
        (match default [] (d !! word) with
        | [] => [mkCompletion word (- PyStr.len last_word)]
        | rel_fnames =>
            map (fun rel_fname =>
                   mkCompletion rel_fname (- PyStr.len last_word)) rel_fnames
         end ++ complete_candidates d last_word rest)%list
      else complete_candidates d last_word rest
  end.

(** [self.words.update(set(self.fname_to_rel_fnames))]: [candidates] is
    bound to the very set object that [self.words] holds, so the update
    is seen through [self]. *)
Definition update_words (self : FileContentCompleter) : FileContentCompleter :=
  {| commands := commands self;
     addable_rel_fnames := addable_rel_fnames self;
     rel_fnames := rel_fnames self;
     fname_to_rel_fnames := fname_to_rel_fnames self;
     words := words self ∪ dom (fname_to_rel_fnames self) |}.

(** [FileContentCompleter.get_completions], on [document.text_before_cursor]:
    the completions yielded, and [self] afterwards. A set is iterated in the
    order of [elements]. *)
Definition get_completions (self : FileContentCompleter) (txt : string)
  : list Completion * FileContentCompleter :=
  let ws := PyStr.split txt in
  match ws with
  | [] => ([], self)
  | w0 :: _ =>
      let last_word := List.last ws EmptyString in
      if bool_decide (PyStr.first_char txt = Some "/"%char) then
        if Nat.eqb (length ws) 1
           && negb (from_option PyStr.isspace false (PyStr.last_char txt))
        then
          (complete_candidates (fname_to_rel_fnames self) last_word
             (get_commands (commands self)), self)
        else
          (get_command_completions (commands self) (PyStr.tail w0) last_word,
           self)
      else
        let self' := update_words self in
        (complete_candidates (fname_to_rel_fnames self') last_word
           (elements (words self')), self')
  end.

(** ** InputOutput: the transcript *)

(** Lines 223-230 of [append_chat_history]: the text that is written. *)
Definition chat_history_text (txt : string) (linebreak blockquote : bool)
  : string :=
  let txt := if blockquote then "> " ++ PyStr.strip txt else txt in
  let txt := if linebreak then PyStr.rstrip txt ++ "  " ++ PyStr.nl else txt in
  if negb (PyStr.endswith txt PyStr.nl) then txt ++ PyStr.nl else txt.

(** [with path.open("a") as f: f.write(data)] *)
Definition file_append (path data : string) (fs : filesystem) : filesystem :=
  <[path := default EmptyString (fs !! path) ++ data]> fs.

(** [InputOutput.append_chat_history] *)
Definition append_chat_history (self : InputOutput) (txt : string)
    (linebreak blockquote : bool) (fs : filesystem) : filesystem :=
  let out := chat_history_text txt linebreak blockquote in
  match chat_history_file self with
  | Some path => file_append path out fs
  | None => fs
  end.

(** [InputOutput.confirm_ask]; [answer] is what [prompt] returns when it is
    called. The result is [None] for Python's [None]. *)
Definition confirm_ask (self : InputOutput) (question answer : string)
    (fs : filesystem) : option bool * filesystem :=
  let res := if yes self then "yes" else answer in
  let hist := PyStr.strip question ++ " " ++ PyStr.strip res in
  let fs := append_chat_history self hist true true fs in
  if negb (PyStr.truthy res) || negb (PyStr.truthy (PyStr.strip res))
  then (None, fs)
  else (Some (PyStr.startswith (PyStr.lower (PyStr.strip res)) "y"), fs).

(** [InputOutput.prompt_ask] *)
Definition prompt_ask (self : InputOutput) (question answer : string)
    (fs : filesystem) : string * filesystem :=
  let res := if yes self then "yes" else answer in
  let hist := PyStr.strip question ++ " " ++ PyStr.strip res in
  let fs := append_chat_history self hist true true fs in
  (res, fs).

(** [InputOutput.tool_error]; the console is not modelled. *)
Definition tool_error (self : InputOutput) (message : string)
    (fs : filesystem) : filesystem :=
  if PyStr.truthy (PyStr.strip message)
  then append_chat_history self (PyStr.strip message) true true fs
  else fs.

(** [InputOutput.tool], on the tuple [messages]; [log_only] only decides
    whether the console is written, and the console is not modelled. *)
Definition tool (self : InputOutput) (messages : list string)
    (log_only : bool) (fs : filesystem) : filesystem :=
  match messages with
  | [] => fs
  | _ :: _ =>
      let hist := PyStr.join " " messages in
      let hist := PyStr.strip hist in
      append_chat_history self hist true true fs
  end.

(** [InputOutput.ai_output] *)
Definition ai_output (self : InputOutput) (content : string)
    (fs : filesystem) : filesystem :=
  let hist := PyStr.nl ++ PyStr.strip content ++ PyStr.nl ++ PyStr.nl in
  append_chat_history self hist false false fs.

(** [InputOutput.__init__]: the object and the file system after the
    header is written. [current_time] is what
    [datetime.now().strftime("%Y-%m-%d %H:%M:%S")] returns. *)
Definition io_init (pretty_arg yes_arg : bool)
    (chat_history_file_arg : option string) (current_time : string)
    (fs : filesystem) : InputOutput * filesystem :=
  let self := {| pretty := pretty_arg;
                 yes := yes_arg;
                 chat_history_file := chat_history_file_arg |} in
  (self,
   append_chat_history self
     (PyStr.nl ++ "# aider chat started at " ++ current_time
      ++ PyStr.nl ++ PyStr.nl) false false fs).

(** ** InputOutput: reading one logical input *)

Section Input.

Variable guess_lexer_for_filename : string -> string -> option Lexer.

(** The [while True] loop of [get_input] (lines 125-156). [lines] is what
    the successive calls of [session.prompt()] return; when it is exhausted
    the read raises. The result is [inp] and the lines not yet read. *)
Fixpoint get_input_loop (fs : filesystem) (root : string)
    (rel addable : list string) (cmds : Commands)
    (lines : list string) (inp : string) (multiline_input : bool)
  : error + (string * list string) :=
  match completer_init guess_lexer_for_filename fs root rel addable cmds with
  | inl e => inl e
  | inr completer_instance =>
      match lines with
      | [] => inl EOFError
      | line :: rest =>
          if String.eqb (PyStr.strip line) "{" && negb multiline_input then
            get_input_loop fs root rel addable cmds rest inp true
          else if String.eqb (PyStr.strip line) "}" && multiline_input then
            inr (inp, rest)
          else if multiline_input then
            get_input_loop fs root rel addable cmds rest
              (inp ++ line ++ PyStr.nl) multiline_input
          else
            inr (line, rest)
      end
  end.

(** The transcript echo of [get_input] (lines 160-169). *)
Definition input_echo (inp : string) : string :=
  let prefix := "####" in
  let hist := if PyStr.truthy inp then PyStr.splitlines inp else ["<blank>"] in
  let hist := PyStr.join ("  " ++ PyStr.nl ++ prefix ++ " ") hist in
  PyStr.nl ++ prefix ++ " " ++ hist.

(** [InputOutput.get_input]: the input, the lines left unread and the file
    system after the echo. *)
Definition get_input (self : InputOutput) (fs : filesystem) (root : string)
    (rel addable : list string) (cmds : Commands) (lines : list string)
  : error + (string * list string * filesystem) :=
  match get_input_loop fs root rel addable cmds lines EmptyString false with
  | inl e => inl e
  | inr (inp, rest) =>
      inr (inp, rest, append_chat_history self (input_echo inp) true false fs)
  end.

End Input.

(** ** The specification's vocabulary *)

(** Section 4.5 of the specification, step by step. *)
Module TranscriptSpec.

Definition blockquote_step (blockquote : bool) (t : string) : string :=
  if blockquote then "> " ++ PyStr.strip t else t.

Definition linebreak_step (linebreak : bool) (t : string) : string :=
  if linebreak then PyStr.rstrip t ++ "  " ++ PyStr.nl else t.

Definition newline_step (t : string) : string :=
  if PyStr.endswith t PyStr.nl then t else t ++ PyStr.nl.

Definition formatted (t : string) (linebreak blockquote : bool) : string :=
  newline_step (linebreak_step linebreak (blockquote_step blockquote t)).

End TranscriptSpec.

(** Section 4.2: the addable paths that [b] is short for, in order: those
    with basename [b] that are not [b] itself. *)
Definition aliases_of (b : string) (addable : list string) : list string :=
  filter (fun p => PyStr.basename p = b /\ p <> b) addable.

(** Section 4.3: the mode a text puts the engine in, the pool that mode
    selects, the last word, and what a matching candidate expands to. *)
Inductive completion_mode : Type :=
  | NoWords
  | TopLevelCommand
  | CommandArguments
  | FreeText.

#[global] Instance completion_mode_eq_dec : EqDecision completion_mode.
Proof. solve_decision. Defined.

Definition mode_of (txt : string) : completion_mode :=
  match PyStr.split txt with
  | [] => NoWords
  | _ :: ws =>
      if bool_decide (PyStr.first_char txt = Some "/"%char) then
        if bool_decide (ws = [])
           && negb (from_option PyStr.isspace false (PyStr.last_char txt))
        then TopLevelCommand else CommandArguments
      else FreeText
  end.

Definition selects_pool (m : completion_mode) : Prop :=
  m = TopLevelCommand \/ m = FreeText.

Definition pool (self : FileContentCompleter) (m : completion_mode)
  : list string :=
  match m with
  | TopLevelCommand => get_commands (commands self)
  | FreeText => elements (words self ∪ dom (fname_to_rel_fnames self))
  | NoWords | CommandArguments => []
  end.

Definition last_word (txt : string) : string :=
  List.last (PyStr.split txt) EmptyString.

Definition expansion (d : gmap string (list string)) (lw word : string)
  : list Completion :=
  match d !! word with
  | Some (p :: ps) => map (fun r => mkCompletion r (- PyStr.len lw)) (p :: ps)
  | _ => [mkCompletion word (- PyStr.len lw)]
  end.

(** Section 4.4: the buffer after the body lines of a multiline input. *)
Fixpoint multiline_text (body : list string) : string :=
  match body with
  | [] => EmptyString
  | l :: body' => l ++ PyStr.nl ++ multiline_text body'
  end.

(** A string without whitespace, and a string without a line boundary. *)
Fixpoint no_space (s : string) : bool :=
  match s with
  | EmptyString => true
  | String c s' => negb (PyStr.isspace c) && no_space s'
  end.

Fixpoint no_linebreak (s : string) : bool :=
  match s with
  | EmptyString => true
  | String c s' => negb (PyStr.is_linebreak c) && no_linebreak s'
  end.

(** The completer after [get_completions] has run, to the end, on each of
    the texts in turn. *)
Definition after_calls (self : FileContentCompleter) (txts : list string)
  : FileContentCompleter :=
  foldl (fun c txt => snd (get_completions c txt)) self txts.

(** ** Sample values *)

Module Sample.

(** A lexer that reports every word of the content as a name, offered for
    the files whose name ends in [.py] only. *)
Definition word_lexer : Lexer :=
  mkLexer (fun content => map (fun w => (["Name"], w)) (PyStr.split content)).

Definition guess (fname content : string) : option Lexer :=
  if PyStr.endswith fname ".py" then Some word_lexer else None.

Definition no_commands : Commands := mkCommands [] (fun _ _ => []).

Definition bare_commands : Commands :=
  mkCommands ["foo"; "bar"] (fun _ _ => []).

Definition slash_commands : Commands :=
  mkCommands ["/foo"; "/bar"] (fun _ _ => []).

Definition repo : filesystem :=
  {[ "/repo/main.py" := "def Hello world"; "/repo/notes" := "plain text" ]}.

Definition in_context : list string := ["main.py"; "notes"].

Definition addable : list string := ["src/util.py"; "test/util.py"; "README"].

Definition shadowed : list string := ["b.py"; "a/b.py"].

Definition logged : InputOutput := mkInputOutput true false (Some "chat.md").

(** The completer over [addable] with no file in context. *)
Definition completer : FileContentCompleter :=
  {| commands := bare_commands;
     addable_rel_fnames := addable;
     rel_fnames := [];
     fname_to_rel_fnames := build_fname_to_rel_fnames addable;
     words := add_all ∅ addable |}.

End Sample.

(** * Properties *)

(** Closed, decidable statements are settled by evaluation. *)
Ltac by_computation :=
  apply (bool_decide_unpack _); vm_compute; exact I.

(** ** Strings *)

Section StringFacts.

Implicit Types (s t p : string) (c : ascii).

Lemma append_cons c s t : String c s ++ t = String c (s ++ t).
Proof. reflexivity. Qed.

Lemma append_nil_r s : s ++ EmptyString = s.
Proof.
  induction s as [|c s IH]; [done |]. by rewrite append_cons, IH.
Qed.

Lemma append_assoc s t p : (s ++ t) ++ p = s ++ t ++ p.
Proof.
  induction s as [|c s IH]; [done |]. by rewrite !append_cons, IH.
Qed.

Lemma rstrip_empty_iff s : PyStr.rstrip s = EmptyString <-> PyStr.all_space s = true.
Proof.
  induction s as [|c s IH]; simpl; [done |].
  destruct (PyStr.rstrip s) as [|c' r] eqn:Hr.
  - destruct (PyStr.isspace c); simpl; [| split; discriminate].
    split; intros _; [by apply IH | done].
  - split; [discriminate |].
    intros [_ Hs]%andb_true_iff. apply IH in Hs. discriminate.
Qed.

Lemma all_space_lstrip s :
  PyStr.all_space (PyStr.lstrip s) = PyStr.all_space s.
Proof.
  induction s as [|c s IH]; simpl; [done |].
  destruct (PyStr.isspace c) eqn:Hc; simpl; [done | by rewrite Hc].
Qed.

Lemma strip_empty_iff s : PyStr.strip s = EmptyString <-> PyStr.all_space s = true.
Proof. unfold PyStr.strip. by rewrite rstrip_empty_iff, all_space_lstrip. Qed.

Lemma truthy_strip s :
  PyStr.truthy (PyStr.strip s) = negb (PyStr.all_space s).
Proof.
  destruct (PyStr.all_space s) eqn:Hs.
  - apply strip_empty_iff in Hs. by rewrite Hs.
  - destruct (PyStr.strip s) eqn:Hstrip; [| done].
    apply strip_empty_iff in Hstrip. congruence.
Qed.

Lemma rstrip_idemp s : PyStr.rstrip (PyStr.rstrip s) = PyStr.rstrip s.
Proof.
  induction s as [|c s IH]; simpl; [done |].
  destruct (PyStr.rstrip s) as [|c' r] eqn:Hr.
  - destruct (PyStr.isspace c) eqn:Hc; simpl; [done | by rewrite Hc].
  - simpl in IH. simpl. by rewrite IH.
Qed.

Lemma rstrip_app s t :
  PyStr.rstrip t <> EmptyString -> PyStr.rstrip (s ++ t) = s ++ PyStr.rstrip t.
Proof.
  intros Ht. induction s as [|c s IH]; [done |].
  rewrite !append_cons. simpl. rewrite IH.
  destruct (s ++ PyStr.rstrip t) eqn:E; [| done].
  destruct s; [done | discriminate].
Qed.

Lemma lstrip_head s :
  match PyStr.lstrip s with
  | String c _ => PyStr.isspace c = false
  | EmptyString => True
  end.
Proof.
  induction s as [|c s IH]; simpl; [done |].
  destruct (PyStr.isspace c) eqn:Hc; [done | by simpl].
Qed.

Lemma rstrip_head s :
  match s with
  | String c _ =>
      PyStr.isspace c = false ->
      exists r, PyStr.rstrip s = String c r
  | EmptyString => True
  end.
Proof.
  destruct s as [|c s]; [done |]. intros Hc. simpl.
  destruct (PyStr.rstrip s); rewrite ?Hc; eauto.
Qed.

Lemma lstrip_fixed s :
  match s with
  | String c _ => PyStr.isspace c = false -> PyStr.lstrip s = s
  | EmptyString => True
  end.
Proof. destruct s as [|c s]; [done |]. simpl. by intros ->. Qed.

Lemma strip_idemp s : PyStr.strip (PyStr.strip s) = PyStr.strip s.
Proof.
  unfold PyStr.strip.
  pose proof (lstrip_head s) as Hh.
  destruct (PyStr.lstrip s) as [|c l] eqn:Hl; [done |].
  destruct (rstrip_head (String c l) Hh) as [r Hr].
  rewrite Hr. pose proof (lstrip_fixed (String c r) Hh) as ->.
  rewrite <- Hr. apply rstrip_idemp.
Qed.

Lemma rstrip_strip s : PyStr.rstrip (PyStr.strip s) = PyStr.strip s.
Proof. apply rstrip_idemp. Qed.

Lemma endswith_app_nl s : PyStr.endswith (s ++ PyStr.nl) PyStr.nl = true.
Proof.
  induction s as [|c s IH]; [done |].
  rewrite append_cons. simpl. rewrite IH. apply orb_true_r.
Qed.




Lemma basename_no_slash p : PyStr.has_slash (PyStr.basename p) = false.
Proof.
  induction p as [|c p IH]; [done |].
  cbn [PyStr.basename]. destruct (PyStr.has_slash (String c p)) eqn:E; done.
Qed.

Lemma basename_fixed_iff p : PyStr.basename p = p <-> PyStr.has_slash p = false.
Proof.
  split.
  - intros <-. apply basename_no_slash.
  - destruct p as [|c p]; [done |]. cbn [PyStr.basename]. by intros ->.
Qed.

Lemma strip_head s :
  match PyStr.strip s with
  | String c _ => PyStr.isspace c = false
  | EmptyString => True
  end.
Proof.
  unfold PyStr.strip. pose proof (lstrip_head s) as Hh.
  destruct (PyStr.lstrip s) as [|c l]; [done |].
  destruct (rstrip_head (String c l) Hh) as [r ->]. done.
Qed.

Lemma strip_fixed c s :
  PyStr.isspace c = false ->
  PyStr.rstrip (String c s) = String c s ->
  PyStr.strip (String c s) = String c s.
Proof.
  intros Hc Hr. unfold PyStr.strip.
  by rewrite (lstrip_fixed (String c s) Hc).
Qed.

(** Two trimmed, non-empty strings joined by one space are already
    trimmed. *)
Lemma strip_joined s t :
  PyStr.all_space s = false -> PyStr.all_space t = false ->
  PyStr.strip (PyStr.strip s ++ " " ++ PyStr.strip t)
  = PyStr.strip s ++ " " ++ PyStr.strip t.
Proof.
  intros Hs Ht.
  assert (PyStr.strip s <> EmptyString) as Hs' by (rewrite strip_empty_iff; congruence).
  assert (PyStr.strip t <> EmptyString) as Ht' by (rewrite strip_empty_iff; congruence).
  assert (PyStr.rstrip (" " ++ PyStr.strip t) = " " ++ PyStr.strip t) as Hr.
  { rewrite rstrip_app; rewrite rstrip_strip; done. }
  pose proof (strip_head s) as Hh.
  destruct (PyStr.strip s) as [|c r] eqn:E; [done |].
  rewrite append_cons. apply strip_fixed; [done |].
  rewrite <- append_cons, rstrip_app; rewrite Hr; [done | discriminate].
Qed.

End StringFacts.

(** ** The transcript *)

Lemma chat_history_text_formatted txt linebreak blockquote :
  chat_history_text txt linebreak blockquote
  = TranscriptSpec.formatted txt linebreak blockquote.
Proof.
  unfold chat_history_text, TranscriptSpec.formatted,
    TranscriptSpec.newline_step, TranscriptSpec.linebreak_step,
    TranscriptSpec.blockquote_step.
  destruct blockquote, linebreak;
    match goal with
    | |- context [PyStr.endswith ?t PyStr.nl] =>
        destruct (PyStr.endswith t PyStr.nl)
    end; reflexivity.
Qed.

Lemma chat_history_text_ends_nl txt linebreak blockquote :
  PyStr.endswith (chat_history_text txt linebreak blockquote) PyStr.nl = true.
Proof.
  unfold chat_history_text.
  match goal with
  | |- context [negb (PyStr.endswith ?t PyStr.nl)] =>
      destruct (PyStr.endswith t PyStr.nl) eqn:E
  end; simpl; [done | apply endswith_app_nl].
Qed.

(** With both flags set a message that is not blank is written as its
    trimmed text between the quote marker and the soft break. *)
Lemma chat_history_text_quoted txt :
  PyStr.all_space txt = false ->
  chat_history_text txt true true
  = "> " ++ PyStr.strip txt ++ "  " ++ PyStr.nl.
Proof.
  intros Hs. unfold chat_history_text.
  assert (PyStr.strip txt <> EmptyString) as Hne by (rewrite strip_empty_iff; congruence).
  rewrite rstrip_app by (by rewrite rstrip_strip).
  rewrite rstrip_strip.
  replace (("> " ++ PyStr.strip txt) ++ "  " ++ PyStr.nl)
    with ((("> " ++ PyStr.strip txt) ++ "  ") ++ PyStr.nl)
    by (by rewrite !append_assoc).
  rewrite endswith_app_nl. simpl. by rewrite !append_assoc.
Qed.

Lemma append_chat_history_strip self txt fs :
  append_chat_history self (PyStr.strip txt) true true fs
  = append_chat_history self txt true true fs.
Proof.
  unfold append_chat_history, chat_history_text. by rewrite strip_idemp.
Qed.

Lemma lookup_file_append path data (fs : filesystem) :
  file_append path data fs !! path
  = Some (default EmptyString (fs !! path) ++ data).
Proof. unfold file_append. apply lookup_insert_eq. Qed.

(** C7: [append_chat_history] formats in the order blockquote (trim, then
    the prefix), linebreak (strip the right end, then two spaces and a
    newline), final newline if still missing, and appends the outcome to the
    destination; without a destination nothing is written. The text "hello"
    with both flags set is written as "> hello", two spaces and a newline. *)
Theorem append_chat_history_format :
  (forall pr y path txt linebreak blockquote (fs : filesystem),
      append_chat_history (mkInputOutput pr y (Some path))
        txt linebreak blockquote fs !! path
      = Some (default EmptyString (fs !! path)
              ++ TranscriptSpec.formatted txt linebreak blockquote))
  /\ (forall pr y txt linebreak blockquote (fs : filesystem),
      append_chat_history (mkInputOutput pr y None) txt linebreak blockquote fs
      = fs)
  /\ (forall txt linebreak blockquote,
      PyStr.endswith (TranscriptSpec.formatted txt linebreak blockquote)
        PyStr.nl = true)
  /\ TranscriptSpec.formatted "hello" true true = "> hello  " ++ PyStr.nl
  /\ chat_history_text "hello" true true = "> hello  " ++ PyStr.nl.
Proof.
  split; [| split; [| split; [| split]]].
  - intros. unfold append_chat_history. simpl.
    by rewrite lookup_file_append, chat_history_text_formatted.
  - done.
  - intros. rewrite <- chat_history_text_formatted.
    apply chat_history_text_ends_nl.
  - reflexivity.
  - reflexivity.
Qed.

(** C10: [tool_error] leaves the file system as it is when the message is
    blank (empty, or whitespace only); any other message is recorded exactly
    as [append_chat_history] records it with blockquote and linebreak, that
    is as the quote marker, the trimmed message and the soft break. *)
Theorem tool_error_transcript (self : InputOutput) (message : string)
    (fs : filesystem) :
  (PyStr.all_space message = true -> tool_error self message fs = fs)
  /\ (PyStr.all_space message = false ->
      tool_error self message fs
      = append_chat_history self message true true fs
      /\ chat_history_text message true true
         = "> " ++ PyStr.strip message ++ "  " ++ PyStr.nl).
Proof.
  unfold tool_error. rewrite truthy_strip.
  split; intros Hblank; rewrite Hblank; cbn [negb].
  - done.
  - split; [apply append_chat_history_strip |].
    by apply chat_history_text_quoted.
Qed.

(** ** Building the candidate index *)

Lemma elem_of_add_all (ws : gset string) (l : list string) (w : string) :
  w ∈ add_all ws l <-> w ∈ ws \/ w ∈ l.
Proof.
  unfold add_all. revert ws.
  induction l as [|x l IH]; intros ws; simpl.
  - rewrite elem_of_nil. tauto.
  - rewrite IH, elem_of_union, elem_of_singleton, elem_of_cons. tauto.
Qed.

Section IndexFacts.

Variable guess_lexer_for_filename : string -> string -> option Lexer.

Local Abbreviation index := (index_files guess_lexer_for_filename).
Local Abbreviation init := (completer_init guess_lexer_for_filename).
Local Abbreviation lexed := (lexed_name guess_lexer_for_filename).

Lemma index_files_error fs root l ws e :
  index fs root l ws = inl e ->
  e = OSError /\ exists f, f ∈ l /\ fs !! PyStr.path_join root f = None.
Proof.
  revert ws. induction l as [|f l IH]; intros ws; simpl; [done |].
  destruct (fs !! PyStr.path_join root f) as [content|] eqn:Hread.
  - destruct (guess_lexer_for_filename _ content) as [lexer|];
      intros (-> & g & Hg & Hnone)%IH;
      (split; [done | exists g; split; [by apply list_elem_of_further | done]]).
  - intros [= <-]. split; [done |]. exists f. split; [apply list_elem_of_here | done].
Qed.

Lemma index_files_unreadable fs root l ws f :
  f ∈ l -> fs !! PyStr.path_join root f = None ->
  index fs root l ws = inl OSError.
Proof.
  revert ws. induction l as [|g l IH]; intros ws Hin Hnone; simpl.
  - by apply elem_of_nil in Hin.
  - destruct (fs !! PyStr.path_join root g) as [content|] eqn:Hread; [| done].
    apply elem_of_cons in Hin as [-> | Hin]; [congruence |].
    destruct (guess_lexer_for_filename _ content); by apply IH.
Qed.

Lemma index_files_readable fs root l ws :
  (forall f, f ∈ l -> is_Some (fs !! PyStr.path_join root f)) ->
  exists ws', index fs root l ws = inr ws'.
Proof.
  intros Hall. destruct (index fs root l ws) as [e|ws'] eqn:E; [| eauto].
  apply index_files_error in E as (_ & f & Hin & Hnone).
  destruct (Hall f Hin) as [? ?]. congruence.
Qed.

Lemma elem_of_index_files fs root l ws ws' w :
  index fs root l ws = inr ws' ->
  w ∈ ws' <->
  w ∈ ws \/ w ∈ l \/ exists f, f ∈ l /\ lexed fs root f w.
Proof.
  revert ws. induction l as [|f l IH]; intros ws; simpl.
  - intros [= <-]. split; [by left |].
    intros [? | [Hin | (f & Hin & _)]]; [done | |]; by apply elem_of_nil in Hin.
  - destruct (fs !! PyStr.path_join root f) as [content|] eqn:Hread; [| done].
    destruct (guess_lexer_for_filename _ content) as [lexer|] eqn:Hlex;
      intros Hrest; rewrite (IH _ Hrest); clear IH Hrest;
      rewrite ?elem_of_union, ?elem_of_singleton, ?elem_of_list_to_set,
        elem_of_cons.
    + split.
      * intros [[[?| ->] | Htok] | [? | (g & Hg & Hgw)]]; eauto.
        -- right. right. exists f. split; [apply list_elem_of_here |].
           by exists content, lexer.
        -- right. right. exists g. split; [by apply list_elem_of_further | done].
      * intros [? | [[-> | ?] | (g & Hg & Hgw)]]; eauto.
        apply elem_of_cons in Hg as [-> | Hg].
        -- destruct Hgw as (content' & lexer' & Hc & Hl & Hw).
           rewrite Hread in Hc. injection Hc as <-.
           rewrite Hlex in Hl. injection Hl as <-. eauto.
        -- right. right. eauto.
    + split.
      * intros [[?| ->] | [? | (g & Hg & Hgw)]]; eauto.
        right. right. exists g. split; [by apply list_elem_of_further | done].
      * intros [? | [[-> | ?] | (g & Hg & Hgw)]]; eauto.
        apply elem_of_cons in Hg as [-> | Hg].
        -- destruct Hgw as (content' & lexer' & Hc & Hl & Hw).
           rewrite Hread in Hc. injection Hc as <-. congruence.
        -- right. right. eauto.
Qed.

Lemma completer_init_readable fs root rel addable cmds :
  (forall f, f ∈ rel -> is_Some (fs !! PyStr.path_join root f)) ->
  exists self, init fs root rel addable cmds = inr self.
Proof.
  intros Hall. unfold completer_init.
  destruct (index_files_readable fs root rel (add_all ∅ addable) Hall)
    as [ws ->]. eauto.
Qed.

Lemma completer_init_fields fs root rel addable cmds self :
  init fs root rel addable cmds = inr self ->
  commands self = cmds
  /\ fname_to_rel_fnames self = build_fname_to_rel_fnames addable
  /\ index fs root rel (add_all ∅ addable) = inr (words self).
Proof.
  unfold completer_init.
  destruct (index fs root rel (add_all ∅ addable)) as [e|ws];
    [done |]. by intros [= <-].
Qed.

Lemma elem_of_completer_words fs root rel addable cmds self w :
  init fs root rel addable cmds = inr self ->
  w ∈ words self <->
  w ∈ addable \/ w ∈ rel \/ exists f, f ∈ rel /\ lexed fs root f w.
Proof.
  intros (_ & _ & Hidx)%completer_init_fields.
  rewrite (elem_of_index_files _ _ _ _ _ _ Hidx), elem_of_add_all.
  rewrite elem_of_empty. tauto.
Qed.

(** C9: the candidate index fails to build exactly when some in-context file
    cannot be read, and the error is then the one of the read. When it is
    built, its words are the addable paths, the in-context paths and the
    name tokens of the in-context files for which a lexer was found: a file
    without a lexer keeps its path in the set and contributes no token, and
    does not stop the tokens of the other files from being collected. *)
Theorem completer_init_failure fs root rel addable cmds :
  ((exists e, init fs root rel addable cmds = inl e) <->
   (exists f, f ∈ rel /\ fs !! PyStr.path_join root f = None))
  /\ (forall e, init fs root rel addable cmds = inl e -> e = OSError)
  /\ (forall self,
        init fs root rel addable cmds = inr self ->
        (forall f, f ∈ rel -> f ∈ words self)
        /\ (forall w, w ∈ words self <->
               w ∈ addable \/ w ∈ rel
               \/ exists f, f ∈ rel /\ lexed fs root f w)
        /\ (forall f content w,
               fs !! PyStr.path_join root f = Some content ->
               guess_lexer_for_filename (PyStr.path_join root f) content = None ->
               ~ lexed fs root f w)).
Proof.
  split; [| split].
  - unfold completer_init. split.
    + intros [e He].
      destruct (index fs root rel (add_all ∅ addable)) as [e'|ws] eqn:E;
        [| done].
      by apply index_files_error in E as [_ ?].
    + intros (f & Hin & Hnone).
      rewrite (index_files_unreadable _ _ _ _ _ Hin Hnone). eauto.
  - unfold completer_init. intros e.
    destruct (index fs root rel (add_all ∅ addable)) as [e'|ws] eqn:E;
      [| done].
    intros [= <-]. by apply index_files_error in E as [? _].
  - intros self Hinit. split; [| split].
    + intros f Hin. rewrite (elem_of_completer_words _ _ _ _ _ _ _ Hinit). eauto.
    + intros w. by apply elem_of_completer_words with cmds.
    + intros f content w Hread Hnolexer (content' & lexer & Hc & Hl & _).
      rewrite Hread in Hc. injection Hc as <-. congruence.
Qed.

End IndexFacts.

Lemma completer_init_failure_witness :
  (exists e, completer_init Sample.guess Sample.repo "/repo"
               ["main.py"; "gone.py"] Sample.addable Sample.bare_commands
             = inl e)
  /\ (exists self,
        completer_init Sample.guess Sample.repo "/repo" Sample.in_context
          Sample.addable Sample.bare_commands = inr self
        /\ "notes" ∈ words self
        /\ ~ lexed_name Sample.guess Sample.repo "/repo" "notes" "plain").
Proof.
  split.
  - apply (proj1 (completer_init_failure Sample.guess Sample.repo "/repo"
                    ["main.py"; "gone.py"] Sample.addable
                    Sample.bare_commands)).
    exists "gone.py". split; [by_computation | vm_compute; reflexivity].
  - eexists. split; [vm_compute; reflexivity |].
    match goal with
    | |- context [words ?c] => set (self := c)
    end.
    assert (completer_init Sample.guess Sample.repo "/repo" Sample.in_context
              Sample.addable Sample.bare_commands = inr self) as Hinit
      by (vm_compute; reflexivity).
    destruct (proj2 (proj2 (completer_init_failure Sample.guess Sample.repo
                              "/repo" Sample.in_context Sample.addable
                              Sample.bare_commands)) self Hinit)
      as (Hpaths & _ & Hskip).
    split.
    + apply Hpaths. by_computation.
    + apply (Hskip "notes" "plain text"); vm_compute; reflexivity.
Defined.

(** ** The alias map *)

Lemma aliases_of_cons b p l :
  aliases_of b (p :: l)
  = if decide (PyStr.basename p = b /\ p <> b) then p :: aliases_of b l
    else aliases_of b l.
Proof. unfold aliases_of. by rewrite filter_cons. Qed.

Lemma elem_of_aliases_of b l p :
  p ∈ aliases_of b l <-> p ∈ l /\ PyStr.basename p = b /\ p <> b.
Proof. unfold aliases_of. rewrite list_elem_of_filter. tauto. Qed.

Lemma foldl_alias_step_lookup (d : gmap string (list string)) l b :
  foldl alias_step d l !! b
  = match aliases_of b l with
    | [] => d !! b
    | ext => Some (default [] (d !! b) ++ ext)%list
    end.
Proof.
  revert d. induction l as [|p l IH]; intros d; [done |].
  cbn [foldl]. rewrite IH, aliases_of_cons. unfold alias_step, dict_append.
  destruct (String.eqb_spec (PyStr.basename p) p) as [Heq | Hne]; cbn [negb].
  - rewrite decide_False by (intros [<- ?]; done). done.
  - destruct (decide (PyStr.basename p = b /\ p <> b)) as [[Hb Hpb] | Hno].
    + subst b. rewrite lookup_insert_eq. cbn [default].
      destruct (aliases_of (PyStr.basename p) l); [done |].
      cbv iota. unfold id. by rewrite <- app_assoc.
    + rewrite lookup_insert_ne; [done |].
      intros Hb. apply Hno. split; congruence.
Qed.

Lemma lookup_build_fname_to_rel_fnames addable b :
  build_fname_to_rel_fnames addable !! b
  = match aliases_of b addable with
    | [] => None
    | ext => Some ext
    end.
Proof.
  unfold build_fname_to_rel_fnames. rewrite foldl_alias_step_lookup.
  rewrite lookup_empty. by destruct (aliases_of b addable).
Qed.

Lemma elem_of_dom_build addable b :
  b ∈ dom (build_fname_to_rel_fnames addable) <->
  exists p, p ∈ addable /\ PyStr.basename p = b /\ p <> b.
Proof.
  rewrite elem_of_dom, lookup_build_fname_to_rel_fnames.
  destruct (aliases_of b addable) as [|q ext] eqn:E.
  - split; [by intros [? ?] |]. intros (p & Hp).
    apply elem_of_aliases_of in Hp. rewrite E in Hp. by apply elem_of_nil in Hp.
  - split; [| by eauto]. intros _. exists q.
    apply elem_of_aliases_of. rewrite E. apply list_elem_of_here.
Qed.

Lemma build_key_no_slash addable b :
  is_Some (build_fname_to_rel_fnames addable !! b) -> PyStr.has_slash b = false.
Proof.
  rewrite <- elem_of_dom, elem_of_dom_build.
  intros (p & _ & <- & _). apply basename_no_slash.
Qed.

(** ** The completion engine *)

Lemma expansion_eq (d : gmap string (list string)) lw word :
  match default [] (d !! word) with
  | [] => [mkCompletion word (- PyStr.len lw)]
  | rel_fnames =>
      map (fun rel_fname => mkCompletion rel_fname (- PyStr.len lw)) rel_fnames
  end = expansion d lw word.
Proof. unfold expansion. by destruct (d !! word) as [[|q l]|]. Qed.

Lemma elem_of_complete_candidates (d : gmap string (list string))
    lw cands comp :
  comp ∈ complete_candidates d lw cands <->
  exists w, w ∈ cands
            /\ PyStr.startswith (PyStr.lower w) (PyStr.lower lw) = true
            /\ comp ∈ expansion d lw w.
Proof.
  induction cands as [|word rest IH]; cbn [complete_candidates].
  - split; [by intros ?%elem_of_nil |]. by intros (w & ?%elem_of_nil & _).
  - rewrite expansion_eq.
    destruct (PyStr.startswith (PyStr.lower word) (PyStr.lower lw)) eqn:Hm.
    + rewrite elem_of_app, IH. split.
      * intros [Hc | (w & Hw & Hmw & Hc)].
        -- exists word. split; [apply list_elem_of_here | done].
        -- exists w. split; [by apply list_elem_of_further | done].
      * intros (w & [-> | Hw]%elem_of_cons & Hmw & Hc); [by left |].
        right. eauto.
    + rewrite IH. split.
      * intros (w & Hw & Hmw & Hc).
        exists w. split; [by apply list_elem_of_further | done].
      * intros (w & [-> | Hw]%elem_of_cons & Hmw & Hc); [congruence |]. eauto.
Qed.


(** [get_completions] by the mode of the text. *)
Lemma get_completions_by_mode self txt :
  get_completions self txt
  = match mode_of txt with
    | NoWords => ([], self)
    | TopLevelCommand =>
        (complete_candidates (fname_to_rel_fnames self) (last_word txt)
           (pool self TopLevelCommand), self)
    | CommandArguments =>
        (get_command_completions (commands self)
           (PyStr.tail (hd EmptyString (PyStr.split txt))) (last_word txt),
         self)
    | FreeText =>
        (complete_candidates (fname_to_rel_fnames self) (last_word txt)
           (pool self FreeText), update_words self)
    end.
Proof.
  unfold get_completions, mode_of, last_word.
  destruct (PyStr.split txt) as [|w0 ws] eqn:Hsplit; [done |].
  destruct (bool_decide (PyStr.first_char txt = Some "/"%char)); [| done].
  destruct ws as [|w1 ws]; [| done].
  cbn [length Nat.eqb andb].
  rewrite bool_decide_eq_true_2 by done. cbn [andb].
  by destruct (negb (from_option PyStr.isspace false (PyStr.last_char txt))).
Qed.

Lemma get_completions_pool self txt :
  selects_pool (mode_of txt) ->
  fst (get_completions self txt)
  = complete_candidates (fname_to_rel_fnames self) (last_word txt)
      (pool self (mode_of txt)).
Proof.
  rewrite get_completions_by_mode. by intros [-> | ->].
Qed.


(** What a call leaves behind. *)
Lemma get_completions_aliases self txt :
  fname_to_rel_fnames (snd (get_completions self txt))
  = fname_to_rel_fnames self.
Proof. rewrite get_completions_by_mode. by destruct (mode_of txt). Qed.

Lemma get_completions_words self txt :
  words (snd (get_completions self txt))
  = if decide (mode_of txt = FreeText)
    then words self ∪ dom (fname_to_rel_fnames self)
    else words self.
Proof. rewrite get_completions_by_mode. by destruct (mode_of txt). Qed.

(** The words that a free-text call leaves in [self.words] do not change
    what a later call yields. *)
Lemma get_completions_again self txt1 txt2 :
  fst (get_completions (snd (get_completions self txt1)) txt2)
  = fst (get_completions self txt2).
Proof.
  rewrite (get_completions_by_mode _ txt2).
  rewrite (get_completions_by_mode self txt2).
  rewrite !get_completions_aliases.
  assert (commands (snd (get_completions self txt1)) = commands self) as Hc
    by (rewrite get_completions_by_mode; by destruct (mode_of txt1)).
  destruct (mode_of txt2); cbn [fst pool]; rewrite ?Hc; try done.
  rewrite get_completions_aliases, get_completions_words.
  case_decide; [| done].
  by rewrite <- (assoc_L (∪)), (idemp_L (∪)).
Qed.

(** C2, as stated, fails: with the addable paths [b.py] and [a/b.py] the
    alias map has an entry for [b.py], which is itself an addable path. *)
Lemma alias_key_is_candidate_path :
  ~ (forall guess fs root rel addable cmds self,
        completer_init guess fs root rel addable cmds = inr self ->
        forall b, b ∈ dom (fname_to_rel_fnames self) ->
                  ~ (b ∈ addable \/ b ∈ rel)).
Proof.
  intros H.
  apply (H Sample.guess ∅ EmptyString [] Sample.shadowed Sample.no_commands _
           eq_refl "b.py").
  - apply elem_of_dom. eexists. vm_compute. reflexivity.
  - left. apply list_elem_of_here.
Qed.

(** C2, amended: the alias map built at construction has an entry for [b]
    exactly when some addable path other than [b] itself has basename [b],
    and the entry lists those paths in order; whether [b] is also a path of
    the candidate set plays no part. When every addable path with basename
    [b] is [b] itself there is no entry for [b]; a single path with a
    directory component does get an entry, of length one. *)
Theorem alias_map_entries guess fs root rel addable cmds self b :
  completer_init guess fs root rel addable cmds = inr self ->
  fname_to_rel_fnames self !! b
  = match aliases_of b addable with
    | [] => None
    | ps => Some ps
    end
  /\ (b ∈ dom (fname_to_rel_fnames self) <->
      exists p, p ∈ addable /\ PyStr.basename p = b /\ p <> b)
  /\ ((forall p, p ∈ addable -> PyStr.basename p = b -> p = b) ->
      fname_to_rel_fnames self !! b = None)
  /\ (forall p, addable = [p] -> PyStr.basename p = b -> p <> b ->
                fname_to_rel_fnames self !! b = Some [p]).
Proof.
  intros (_ & -> & _)%completer_init_fields.
  split; [apply lookup_build_fname_to_rel_fnames |].
  split; [apply elem_of_dom_build |]. split.
  - intros Hown. apply not_elem_of_dom. rewrite elem_of_dom_build.
    intros (p & Hin & Hb & Hne). by apply Hne, Hown.
  - intros p -> Hb Hne. rewrite lookup_build_fname_to_rel_fnames.
    rewrite aliases_of_cons, decide_True by done. done.
Qed.

Lemma alias_map_entries_witness :
  fname_to_rel_fnames Sample.completer !! "util.py"
  = Some ["src/util.py"; "test/util.py"].
Proof.
  pose proof (alias_map_entries Sample.guess ∅ EmptyString [] Sample.addable
                Sample.bare_commands Sample.completer "util.py" eq_refl)
    as [H _].
  exact H.
Defined.






Lemma elem_of_pair (x a b : string) :
  x ∈ [a; b] <-> x = a \/ x = b.
Proof.
  rewrite elem_of_cons, list_elem_of_singleton. tauto.
Qed.

Lemma complete_candidates_none (d : gmap string (list string)) lw cands :
  (forall w, w ∈ cands ->
             PyStr.startswith (PyStr.lower w) (PyStr.lower lw) = false) ->
  complete_candidates d lw cands = [].
Proof.
  intros Hno. induction cands as [|w rest IH]; [done |].
  cbn [complete_candidates]. rewrite (Hno w) by apply list_elem_of_here.
  apply IH. intros w' Hw'. by apply Hno, list_elem_of_further.
Qed.

(** C4, as stated, fails: with the command names [foo] and [bar] the text
    [/fo] yields nothing, since no name starts with the slash of the last
    word. *)
Lemma bare_command_names_not_completed :
  ~ (forall self,
        (forall name, name ∈ get_commands (commands self) <->
                      name = "foo" \/ name = "bar") ->
        forall t, t ∈ map text (fst (get_completions self "/fo")) <->
                  t = "foo").
Proof.
  intros H.
  pose proof (proj2 (H Sample.completer (fun name => elem_of_pair name _ _)
                       "foo") eq_refl) as Hin.
  vm_compute in Hin. by apply elem_of_nil in Hin.
Qed.

(** C4, amended: the candidates of top-level command mode are compared with
    the whole last word, command prefix included. When the registered names
    are [/foo] and [/bar] the text [/fo] yields exactly [/foo], to replace
    the three characters typed; when they are [foo] and [bar] it yields
    nothing. *)
Theorem top_level_command_completion guess fs root rel addable cmds self :
  completer_init guess fs root rel addable cmds = inr self ->
  ((forall name, name ∈ get_commands cmds <->
                 name = "/foo" \/ name = "/bar") ->
   forall comp, comp ∈ fst (get_completions self "/fo") <->
                comp = mkCompletion "/foo" (-3))
  /\ ((forall name, name ∈ get_commands cmds <->
                    name = "foo" \/ name = "bar") ->
      fst (get_completions self "/fo") = []).
Proof.
  intros (Hc & Hd & _)%completer_init_fields.
  rewrite get_completions_pool by (by left).
  change (mode_of "/fo") with TopLevelCommand.
  change (last_word "/fo") with "/fo".
  cbn [pool]. rewrite Hc, Hd. split; intros Hnames.
  - assert (expansion (build_fname_to_rel_fnames addable) "/fo" "/foo"
            = [mkCompletion "/foo" (-3)]) as Hexp.
    { unfold expansion.
      destruct (build_fname_to_rel_fnames addable !! "/foo") as [l|] eqn:E;
        [| done].
      assert (PyStr.has_slash "/foo" = false) as Hslash
        by (eapply build_key_no_slash; eauto).
      discriminate Hslash. }
    intros comp. rewrite elem_of_complete_candidates. split.
    + intros (w & [-> | ->]%Hnames & Hmatch & Hcomp).
      * rewrite Hexp in Hcomp. by apply list_elem_of_singleton in Hcomp.
      * discriminate Hmatch.
    + intros ->. exists "/foo". split; [apply Hnames; by left |].
      split; [done |]. rewrite Hexp. apply list_elem_of_here.
  - apply complete_candidates_none. by intros w [-> | ->]%Hnames.
Qed.

Lemma top_level_command_completion_witness :
  (exists self,
      completer_init Sample.guess Sample.repo "/repo" Sample.in_context
        Sample.addable Sample.slash_commands = inr self
      /\ mkCompletion "/foo" (-3) ∈ fst (get_completions self "/fo"))
  /\ (exists self,
        completer_init Sample.guess Sample.repo "/repo" Sample.in_context
          Sample.addable Sample.bare_commands = inr self
        /\ fst (get_completions self "/fo") = []).
Proof.
  split; eexists; (split; [vm_compute; reflexivity |]).
  - eapply (proj1 (top_level_command_completion Sample.guess Sample.repo
                     "/repo" Sample.in_context Sample.addable
                     Sample.slash_commands _ _)); [| reflexivity].
    intros name. apply elem_of_pair.
  - eapply (proj2 (top_level_command_completion Sample.guess Sample.repo
                     "/repo" Sample.in_context Sample.addable
                     Sample.bare_commands _ _)).
    intros name. apply elem_of_pair.
    Unshelve. all: vm_compute; reflexivity.
Defined.

(** C1 at a completer that [__init__] returns: one free-text call leaves
    [util.py], a key of the alias map, in [self.words], where it was not
    before; the alias map is as it was. *)
Theorem get_completions_updates_words :
  completer_init Sample.guess ∅ EmptyString [] Sample.addable Sample.bare_commands
  = inr Sample.completer
  /\ ("util.py" ∉ words Sample.completer)
  /\ "util.py" ∈ words (snd (get_completions Sample.completer "x"))
  /\ words (snd (get_completions Sample.completer "x"))
     <> words Sample.completer
  /\ fname_to_rel_fnames (snd (get_completions Sample.completer "x"))
     = fname_to_rel_fnames Sample.completer.
Proof.
  assert ("util.py" ∉ words Sample.completer) as Hout.
  { by_computation. }
  assert ("util.py" ∈ words (snd (get_completions Sample.completer "x")))
    as Hin.
  { by_computation. }
  split; [reflexivity |]. split; [done |]. split; [done |]. split.
  - intros Heq. apply Hout. by rewrite <- Heq.
  - apply get_completions_aliases.
Qed.

(** ** Reading a multiline input *)

Section InputFacts.

Variable guess_lexer_for_filename : string -> string -> option Lexer.

Local Abbreviation loop := (get_input_loop guess_lexer_for_filename).
Local Abbreviation init := (completer_init guess_lexer_for_filename).

Lemma strip_open_brace : PyStr.strip "{" = "{".
Proof. reflexivity. Qed.

Lemma strip_close_brace : PyStr.strip "}" = "}".
Proof. reflexivity. Qed.

(** In multiline mode every line that is not the closing delimiter is added
    to the buffer with a newline, and the closing delimiter ends the read. *)
Lemma get_input_loop_multiline fs root rel addable cmds self body rest inp :
  init fs root rel addable cmds = inr self ->
  Forall (fun l => PyStr.strip l <> "}") body ->
  loop fs root rel addable cmds (body ++ "}" :: rest)%list inp true
  = inr (inp ++ multiline_text body, rest).
Proof.
  intros Hinit Hbody. revert inp.
  induction Hbody as [|l body Hl Hbody IH]; intros inp.
  - cbn [app get_input_loop multiline_text]. rewrite Hinit.
    rewrite strip_close_brace. cbn. by rewrite append_nil_r.
  - cbn [app get_input_loop multiline_text]. rewrite Hinit.
    rewrite andb_false_r. apply String.eqb_neq in Hl. rewrite Hl. cbn [andb].
    rewrite IH. by rewrite !append_assoc.
Qed.

Lemma get_input_braces self fs root rel addable cmds completer body rest :
  init fs root rel addable cmds = inr completer ->
  Forall (fun l => PyStr.strip l <> "}") body ->
  get_input guess_lexer_for_filename self fs root rel addable cmds
    ("{" :: body ++ "}" :: rest)%list
  = inr (multiline_text body, rest,
         append_chat_history self (input_echo (multiline_text body))
           true false fs).
Proof.
  intros Hinit Hbody. unfold get_input.
  cbn [get_input_loop]. rewrite Hinit, strip_open_brace.
  change (String.eqb "{" "{" && negb false) with true. cbv iota.
  by rewrite (get_input_loop_multiline _ _ _ _ _ _ _ _ _ Hinit Hbody).
Qed.

(** C5: when every in-context file can be read (the index is rebuilt before
    each line is read), the raw lines "{", l1, ..., ln, "}" with no li that
    trims to "}" make [get_input] return l1 + newline + ... + ln + newline,
    neither delimiter included, and leave the lines after the closing
    delimiter unread; the lines "{", "}" give the empty input. *)
Theorem get_input_multiline self fs root rel addable cmds body rest :
  (forall f, f ∈ rel -> is_Some (fs !! PyStr.path_join root f)) ->
  Forall (fun l => PyStr.strip l <> "}") body ->
  get_input guess_lexer_for_filename self fs root rel addable cmds
    ("{" :: body ++ "}" :: rest)%list
  = inr (multiline_text body, rest,
         append_chat_history self (input_echo (multiline_text body))
           true false fs)
  /\ get_input guess_lexer_for_filename self fs root rel addable cmds
       ["{"; "}"]
     = inr (EmptyString, [], append_chat_history self (input_echo EmptyString) true false fs).
Proof.
  intros Hread Hbody.
  destruct (completer_init_readable guess_lexer_for_filename fs root rel
              addable cmds Hread) as [completer Hinit].
  split.
  - by apply get_input_braces with completer.
  - by apply (get_input_braces self fs root rel addable cmds completer [] []).
Qed.

End InputFacts.

Lemma get_input_multiline_witness :
  get_input Sample.guess Sample.logged Sample.repo "/repo"
    Sample.in_context Sample.addable Sample.bare_commands
    ["{"; "line1"; " { "; "line2"; "}"; "next"]
  = inr ("line1" ++ PyStr.nl ++ " { " ++ PyStr.nl ++ "line2" ++ PyStr.nl,
         ["next"],
         append_chat_history Sample.logged
           (input_echo (multiline_text ["line1"; " { "; "line2"]))
           true false Sample.repo).
Proof.
  refine (proj1 (get_input_multiline Sample.guess Sample.logged Sample.repo
                   "/repo" Sample.in_context Sample.addable
                   Sample.bare_commands ["line1"; " { "; "line2"] ["next"]
                   _ _)).
  - intros f Hf. apply list_elem_of_In in Hf. simpl in Hf.
    destruct Hf as [<- | [<- | []]]; vm_compute; eauto.
  - repeat constructor; vm_compute; discriminate.
Defined.

(** ** Confirmations and prompts *)

(** C8, as stated, fails: a question that ends in whitespace is not echoed
    verbatim; the whitespace before the single joining space is dropped. *)
Lemma question_is_not_echoed_verbatim :
  ~ (forall self question answer fs,
        let res := if yes self then "yes" else answer in
        snd (confirm_ask self question answer fs)
        = append_chat_history self (question ++ " " ++ PyStr.strip res)
            true true fs
        /\ snd (prompt_ask self question answer fs)
           = append_chat_history self (question ++ " " ++ PyStr.strip res)
               true true fs).
Proof.
  intros H. destruct (H Sample.logged "ok? " "y" ∅) as [Hconfirm _].
  apply (f_equal (fun fs => fs !! "chat.md")) in Hconfirm.
  vm_compute in Hconfirm. discriminate Hconfirm.
Qed.

(** C8, amended: [confirm_ask] and [prompt_ask] append to the transcript,
    with blockquote and linebreak, the trimmed question and the trimmed
    response joined by one space (the response being "yes" when [yes] is
    set). When neither is blank the text written is the quote marker, the
    trimmed question, a space, the trimmed response and the soft break. *)
Theorem ask_transcript (self : InputOutput) (question answer : string)
    (fs : filesystem) :
  let res := if yes self then "yes" else answer in
  let hist := PyStr.strip question ++ " " ++ PyStr.strip res in
  snd (confirm_ask self question answer fs)
  = append_chat_history self hist true true fs
  /\ snd (prompt_ask self question answer fs)
     = append_chat_history self hist true true fs
  /\ fst (prompt_ask self question answer fs) = res
  /\ (PyStr.all_space question = false -> PyStr.all_space res = false ->
      chat_history_text hist true true
      = "> " ++ PyStr.strip question ++ " " ++ PyStr.strip res
        ++ "  " ++ PyStr.nl).
Proof.
  intros res hist. split; [| split; [| split]].
  - unfold confirm_ask. fold res. fold hist.
    by destruct (negb (PyStr.truthy res)
                 || negb (PyStr.truthy (PyStr.strip res))).
  - done.
  - done.
  - intros Hq Hr. unfold chat_history_text, hist.
    rewrite (strip_joined _ _ Hq Hr).
    assert (PyStr.strip res <> EmptyString) as Hne
      by (rewrite strip_empty_iff; congruence).
    rewrite <- !append_assoc.
    rewrite rstrip_app by (by rewrite rstrip_strip).
    rewrite rstrip_strip.
    replace ((("> " ++ PyStr.strip question) ++ " ") ++ PyStr.strip res)
      with ("> " ++ PyStr.strip question ++ " " ++ PyStr.strip res)
      by (by rewrite !append_assoc).
    replace (("> " ++ PyStr.strip question ++ " " ++ PyStr.strip res)
             ++ "  " ++ PyStr.nl)
      with ((("> " ++ PyStr.strip question ++ " " ++ PyStr.strip res)
             ++ "  ") ++ PyStr.nl)
      by (by rewrite !append_assoc).
    rewrite endswith_app_nl. cbn [negb]. by rewrite !append_assoc.
Qed.

Lemma ask_transcript_witness :
  chat_history_text (PyStr.strip " Add file? " ++ " " ++ PyStr.strip "y ")
    true true
  = "> Add file? y  " ++ PyStr.nl.
Proof.
  destruct (ask_transcript Sample.logged " Add file? " "y " ∅)
    as (_ & _ & _ & Htext).
  apply Htext; vm_compute; reflexivity.
Defined.

Lemma tool_error_transcript_witness :
  tool_error Sample.logged "   " Sample.repo = Sample.repo
  /\ chat_history_text " no such file " true true
     = "> no such file  " ++ PyStr.nl.
Proof.
  split.
  - apply (proj1 (tool_error_transcript Sample.logged "   " Sample.repo)).
    vm_compute. reflexivity.
  - apply (proj2 (tool_error_transcript Sample.logged " no such file "
                    Sample.repo)).
    vm_compute. reflexivity.
Defined.

(** * Further properties of the code *)

(** ** Words of a text *)

Lemma split_nil_iff s : PyStr.split s = [] <-> PyStr.all_space s = true.
Proof.
  induction s as [|c s IH]; [done |]. cbn [PyStr.split PyStr.all_space].
  destruct (PyStr.isspace c); cbn [andb]; [done |].
  split; [| done].
  destruct s as [|c' s']; [done |].
  destruct (PyStr.isspace c'); [done |].
  by destruct (PyStr.split (String c' s')).
Qed.

Lemma split_cons_space c s :
  PyStr.isspace c = true -> PyStr.split (String c s) = PyStr.split s.
Proof. intros Hc. cbn [PyStr.split]. by rewrite Hc. Qed.

Lemma split_cons_word a s :
  PyStr.isspace a = false ->
  PyStr.split (String a s)
  = match s with
    | EmptyString => [String a EmptyString]
    | String c' _ =>
        if PyStr.isspace c' then String a EmptyString :: PyStr.split s
        else match PyStr.split s with
             | w :: ws => String a w :: ws
             | [] => [String a EmptyString]
             end
    end.
Proof. intros Ha. cbn [PyStr.split]. by rewrite Ha. Qed.

Lemma split_word_then_space w c s :
  w <> EmptyString -> no_space w = true -> PyStr.isspace c = true ->
  PyStr.split (w ++ String c s) = w :: PyStr.split s.
Proof.
  intros Hne Hw Hc. induction w as [|a w IH]; [done |].
  cbn [no_space] in Hw. apply andb_true_iff in Hw as [Ha Hw].
  apply negb_true_iff in Ha. rewrite append_cons, (split_cons_word _ _ Ha).
  destruct w as [|b w'].
  - change (EmptyString ++ String c s) with (String c s). cbv beta iota.
    by rewrite Hc, split_cons_space.
  - rewrite IH by done. rewrite append_cons. cbv beta iota.
    cbn [no_space] in Hw. apply andb_true_iff in Hw as [Hb _].
    apply negb_true_iff in Hb. by rewrite Hb.
Qed.

Lemma split_words_shape s :
  Forall (fun w => w <> EmptyString /\ no_space w = true) (PyStr.split s).
Proof.
  induction s as [|c s IH]; [constructor |].
  destruct (PyStr.isspace c) eqn:Hc; [by rewrite split_cons_space |].
  rewrite (split_cons_word _ _ Hc).
  assert (String c EmptyString <> EmptyString
          /\ no_space (String c EmptyString) = true) as Hone.
  { split; [done |]. cbn. by rewrite Hc. }
  destruct s as [|c' s']; [by apply Forall_singleton |].
  destruct (PyStr.isspace c') eqn:Hc'; [by apply Forall_cons |].
  destruct (PyStr.split (String c' s')) as [|w ws];
    [by apply Forall_singleton |].
  apply Forall_cons in IH as [[Hw Hns] IH]. apply Forall_cons. split; [| done].
  split; [done |]. cbn [no_space]. by rewrite Hc, Hns.
Qed.

Lemma last_elem_of (l : list string) d : l <> [] -> List.last l d ∈ l.
Proof.
  induction l as [|x l IH]; [done |]. intros _.
  destruct l as [|y l]; [apply list_elem_of_here |].
  change (List.last (x :: y :: l) d) with (List.last (y :: l) d).
  apply list_elem_of_further, IH. done.
Qed.

Lemma last_word_shape txt :
  PyStr.split txt <> [] ->
  last_word txt <> EmptyString /\ no_space (last_word txt) = true.
Proof.
  intros Hne. pose proof (split_words_shape txt) as Hall.
  rewrite Forall_forall in Hall. apply Hall. by apply last_elem_of.
Qed.

Lemma last_char_app_char s c :
  PyStr.last_char (s ++ String c EmptyString) = Some c.
Proof.
  induction s as [|a s IH]; [done |]. rewrite append_cons.
  cbn [PyStr.last_char]. rewrite IH.
  by destruct (s ++ String c EmptyString) eqn:E; [destruct s |].
Qed.

Lemma mode_of_selects_pool_words txt :
  selects_pool (mode_of txt) -> PyStr.split txt <> [].
Proof.
  unfold mode_of. destruct (PyStr.split txt); [| done].
  intros [? | ?]; discriminate.
Qed.

Lemma split_word w :
  w <> EmptyString -> no_space w = true -> PyStr.split w = [w].
Proof.
  intros Hne Hw. induction w as [|a w IH]; [done |].
  cbn [no_space] in Hw. apply andb_true_iff in Hw as [Ha Hw].
  apply negb_true_iff in Ha. rewrite (split_cons_word _ _ Ha).
  destruct w as [|b w']; [done |].
  rewrite IH by done.
  cbn [no_space] in Hw. apply andb_true_iff in Hw as [Hb _].
  apply negb_true_iff in Hb. by rewrite Hb.
Qed.

(** ** Further properties of the completion engine *)

(** X1: a text that is empty or all whitespace yields no completion, in any
    mode, and the completer is left as it was. *)
Theorem blank_text_no_completions (self : FileContentCompleter) txt :
  PyStr.all_space txt = true -> get_completions self txt = ([], self).
Proof.
  intros Hblank%split_nil_iff. unfold get_completions. by rewrite Hblank.
Qed.

Lemma blank_text_no_completions_witness :
  get_completions Sample.completer "   " = ([], Sample.completer).
Proof. apply blank_text_no_completions. vm_compute. reflexivity. Defined.

(** X2: a text made of a slash, a command word, one space and an argument
    word is handed to the registry as (command without the slash, argument)
    and the registry's completions are returned as they are. A command word
    followed by a space and nothing else is handed over as well, and then the
    partial word given to the registry is the command word itself, slash
    included. Neither call touches the completer. *)
Theorem command_arguments_delegated (self : FileContentCompleter) cmd arg :
  no_space cmd = true ->
  (arg <> EmptyString -> no_space arg = true ->
   get_completions self ("/" ++ cmd ++ " " ++ arg)
   = (get_command_completions (commands self) cmd arg, self))
  /\ get_completions self ("/" ++ cmd ++ " ")
     = (get_command_completions (commands self) cmd ("/" ++ cmd), self).
Proof.
  intros Hcmd.
  assert (String "/" cmd <> EmptyString) as Hne by done.
  assert (no_space (String "/" cmd) = true) as Hns by (by cbn [no_space]).
  split.
  - intros Harg Hnsarg.
    change ("/" ++ cmd ++ " " ++ arg) with (String "/" cmd ++ String " " arg).
    unfold get_completions.
    rewrite (split_word_then_space _ " "%char arg Hne Hns eq_refl).
    rewrite (split_word _ Harg Hnsarg). rewrite append_cons.
    cbn [PyStr.first_char]. rewrite bool_decide_eq_true_2 by done.
    reflexivity.
  - change ("/" ++ cmd ++ " ")
      with (String "/" cmd ++ String " " EmptyString).
    unfold get_completions.
    rewrite (split_word_then_space _ " "%char EmptyString Hne Hns eq_refl).
    rewrite last_char_app_char. rewrite append_cons.
    cbn [PyStr.first_char]. rewrite bool_decide_eq_true_2 by done.
    reflexivity.
Qed.

Lemma command_arguments_delegated_witness :
  get_completions Sample.completer "/add ma"
  = (get_command_completions Sample.bare_commands "add" "ma",
     Sample.completer)
  /\ get_completions Sample.completer "/add "
     = (get_command_completions Sample.bare_commands "add" "/add",
        Sample.completer).
Proof.
  destruct (command_arguments_delegated Sample.completer "add" "ma" eq_refl)
    as [Hargs Hbare].
  split; [apply Hargs; [discriminate | reflexivity] | exact Hbare].
Defined.

(** X3: in top-level command mode and in free-text mode every completion
    replaces exactly the last word: its start position is minus the length
    of the last word, which is negative. *)
Theorem completion_replaces_last_word (self : FileContentCompleter) txt comp :
  selects_pool (mode_of txt) ->
  comp ∈ fst (get_completions self txt) ->
  start_position comp = (- PyStr.len (last_word txt))%Z
  /\ (start_position comp < 0)%Z.
Proof.
  intros Hmode Hin. rewrite get_completions_pool in Hin by done.
  apply elem_of_complete_candidates in Hin as (w & _ & _ & Hc).
  assert (start_position comp = (- PyStr.len (last_word txt))%Z) as Hpos.
  { unfold expansion in Hc.
    destruct (fname_to_rel_fnames self !! w) as [[|p ps]|].
    - by apply list_elem_of_singleton in Hc as ->.
    - by apply list_elem_of_fmap in Hc as (r & -> & _).
    - by apply list_elem_of_singleton in Hc as ->. }
  split; [done |]. rewrite Hpos.
  destruct (last_word_shape txt (mode_of_selects_pool_words _ Hmode))
    as [Hne _].
  unfold PyStr.len. destruct (last_word txt); [done |]. cbn. lia.
Qed.

Lemma completion_replaces_last_word_witness :
  start_position (mkCompletion "README" (-4)) = (- PyStr.len "READ")%Z
  /\ (start_position (mkCompletion "README" (-4)) < 0)%Z.
Proof.
  apply (completion_replaces_last_word Sample.completer "see READ").
  - right. vm_compute. reflexivity.
  - by_computation.
Defined.

Lemma completer_alias_lookup guess fs root rel addable cmds self w :
  completer_init guess fs root rel addable cmds = inr self ->
  fname_to_rel_fnames self !! w
  = match aliases_of w addable with
    | [] => None
    | ps => Some ps
    end.
Proof.
  intros (_ & -> & _)%completer_init_fields.
  apply lookup_build_fname_to_rel_fnames.
Qed.

(** X4: in free-text mode nothing is offered that is not in the candidate
    set the completer was built with: the text of every completion is one of
    its words, although the alias keys are searched as well. *)
Theorem free_text_completions_are_words
    guess fs root rel addable cmds self txt comp :
  completer_init guess fs root rel addable cmds = inr self ->
  mode_of txt = FreeText ->
  comp ∈ fst (get_completions self txt) ->
  text comp ∈ words self.
Proof.
  intros Hinit Hmode Hin.
  rewrite get_completions_pool in Hin by (rewrite Hmode; by right).
  rewrite Hmode in Hin. cbn [pool] in Hin.
  apply elem_of_complete_candidates in Hin as (w & Hw & _ & Hc).
  unfold expansion in Hc.
  rewrite (completer_alias_lookup _ _ _ _ _ _ _ w Hinit) in Hc.
  destruct (aliases_of w addable) as [|p ps] eqn:Hal.
  - apply list_elem_of_singleton in Hc as ->. cbn [text].
    apply elem_of_elements, elem_of_union in Hw as [Hw | Hw]; [done |].
    apply elem_of_dom in Hw as [l Hl].
    rewrite (completer_alias_lookup _ _ _ _ _ _ _ w Hinit), Hal in Hl.
    discriminate Hl.
  - apply list_elem_of_fmap in Hc as (r & -> & Hr). cbn [text].
    rewrite <- Hal in Hr. apply elem_of_aliases_of in Hr as [Hr _].
    apply (elem_of_completer_words _ _ _ _ _ _ _ _ Hinit). by left.
Qed.

Lemma free_text_completions_are_words_witness :
  "test/util.py" ∈ words Sample.completer.
Proof.
  apply (free_text_completions_are_words Sample.guess ∅ EmptyString []
           Sample.addable Sample.bare_commands Sample.completer "ut"
           (mkCompletion "test/util.py" (-2))).
  - reflexivity.
  - vm_compute. reflexivity.
  - by_computation.
Defined.

(** X5: a word of the candidate set that contains a slash is never an alias
    key, so in free-text mode it is offered as it is whenever the last word
    is a prefix of it up to letter case. *)
Theorem nested_path_offered_as_is
    guess fs root rel addable cmds self txt w :
  completer_init guess fs root rel addable cmds = inr self ->
  mode_of txt = FreeText ->
  w ∈ words self ->
  PyStr.has_slash w = true ->
  PyStr.startswith (PyStr.lower w) (PyStr.lower (last_word txt)) = true ->
  mkCompletion w (- PyStr.len (last_word txt))
  ∈ fst (get_completions self txt).
Proof.
  intros Hinit Hmode Hw Hslash Hmatch.
  rewrite get_completions_pool by (rewrite Hmode; by right).
  rewrite Hmode. cbn [pool].
  apply elem_of_complete_candidates. exists w. split; [| split; [done |]].
  - apply elem_of_elements, elem_of_union. by left.
  - unfold expansion.
    destruct (fname_to_rel_fnames self !! w) as [l|] eqn:Hl;
      [| apply list_elem_of_here].
    apply completer_init_fields in Hinit as (_ & Hd & _). rewrite Hd in Hl.
    assert (PyStr.has_slash w = false) as Hno
      by (eapply build_key_no_slash; eauto).
    congruence.
Qed.

Lemma nested_path_offered_as_is_witness :
  mkCompletion "src/util.py" (-3)
  ∈ fst (get_completions Sample.completer "edit SRC").
Proof.
  apply (nested_path_offered_as_is Sample.guess ∅ EmptyString []
           Sample.addable Sample.bare_commands Sample.completer
           "edit SRC" "src/util.py").
  - reflexivity.
  - vm_compute. reflexivity.
  - by_computation.
  - vm_compute. reflexivity.
  - vm_compute. reflexivity.
Defined.

(** X6: the basename of an addable path that lies in a directory is never
    the text of a completion taken from a pool, even when a file of that
    very name is addable or in context: such a file cannot be completed by
    its own name. *)
Theorem shadowed_name_never_offered
    guess fs root rel addable cmds self p txt comp :
  completer_init guess fs root rel addable cmds = inr self ->
  p ∈ addable ->
  PyStr.basename p <> p ->
  selects_pool (mode_of txt) ->
  comp ∈ fst (get_completions self txt) ->
  text comp <> PyStr.basename p.
Proof.
  intros Hinit Hp Hdir Hmode Hin.
  rewrite get_completions_pool in Hin by done.
  apply elem_of_complete_candidates in Hin as (w & _ & _ & Hc).
  unfold expansion in Hc.
  rewrite (completer_alias_lookup _ _ _ _ _ _ _ w Hinit) in Hc.
  destruct (aliases_of w addable) as [|q qs] eqn:Hal.
  - apply list_elem_of_singleton in Hc as ->. cbn [text]. intros ->.
    assert (p ∈ aliases_of (PyStr.basename p) addable) as Hpin
      by (apply elem_of_aliases_of; split; [done | split; [done | congruence]]).
    rewrite Hal in Hpin. by apply elem_of_nil in Hpin.
  - apply list_elem_of_fmap in Hc as (r & -> & Hr). cbn [text]. intros ->.
    rewrite <- Hal in Hr. apply elem_of_aliases_of in Hr as (_ & Hb & Hne).
    apply Hne. rewrite <- Hb. symmetry.
    apply basename_fixed_iff, basename_no_slash.
Qed.

Lemma shadowed_name_never_offered_witness :
  exists self,
    completer_init Sample.guess ∅ EmptyString [] Sample.shadowed
      Sample.no_commands = inr self
    /\ fst (get_completions self "b") = [mkCompletion "a/b.py" (-1)]
    /\ forall comp, comp ∈ fst (get_completions self "b") ->
                    text comp <> "b.py".
Proof.
  eexists. split; [reflexivity |]. split; [vm_compute; reflexivity |].
  intros comp Hin.
  refine (shadowed_name_never_offered Sample.guess ∅ EmptyString []
            Sample.shadowed Sample.no_commands _ "a/b.py" "b" comp
            eq_refl _ _ _ Hin).
  - by_computation.
  - vm_compute. discriminate.
  - right. vm_compute. reflexivity.
Defined.

(** X7: what a call yields does not depend on the calls made before it on
    the same completer: after any sequence of calls a text yields the
    completions it yields on the completer as built, the alias map is as
    built, and the words are those built, with or without the alias keys. *)
Theorem completions_independent_of_history
    (self : FileContentCompleter) (txts : list string) (txt : string) :
  fst (get_completions (after_calls self txts) txt)
  = fst (get_completions self txt)
  /\ fname_to_rel_fnames (after_calls self txts) = fname_to_rel_fnames self
  /\ (words (after_calls self txts) = words self
      \/ words (after_calls self txts)
         = words self ∪ dom (fname_to_rel_fnames self)).
Proof.
  unfold after_calls. revert self.
  induction txts as [|t txts IH]; intros self; [by auto |].
  cbn [foldl]. destruct (IH (snd (get_completions self t))) as (Hres & Hd & Hw).
  rewrite Hres, Hd, get_completions_again, get_completions_aliases.
  split; [done |]. split; [done |].
  rewrite get_completions_aliases, get_completions_words in Hw.
  case_decide; [| done]. right.
  destruct Hw as [-> | ->]; [done |].
  by rewrite <- (assoc_L (∪)), (idemp_L (∪)).
Qed.

(** ** Further properties of paths and of the alias map *)

Lemma has_slash_app s t :
  PyStr.has_slash (s ++ t) = PyStr.has_slash s || PyStr.has_slash t.
Proof.
  induction s as [|c s IH]; [done |]. rewrite append_cons.
  cbn [PyStr.has_slash]. by rewrite IH, orb_assoc.
Qed.

Lemma basename_cons c p :
  PyStr.basename (String c p)
  = if PyStr.has_slash (String c p) then PyStr.basename p else String c p.
Proof. reflexivity. Qed.

(** A path with a slash is a directory part, a slash and its basename. *)
Lemma basename_decompose p :
  PyStr.has_slash p = true ->
  exists d, p = d ++ "/" ++ PyStr.basename p.
Proof.
  induction p as [|c p IH]; [done |]. intros Hs.
  rewrite basename_cons, Hs.
  destruct (PyStr.has_slash p) eqn:Hp.
  - destruct (IH eq_refl) as [d Hd]. exists (String c d).
    by rewrite append_cons, <- Hd.
  - cbn [PyStr.has_slash] in Hs. rewrite Hp, orb_false_r in Hs.
    apply Ascii.eqb_eq in Hs as ->. exists EmptyString.
    by rewrite (proj2 (basename_fixed_iff p) Hp).
Qed.

Lemma basename_app_slash d b :
  PyStr.has_slash b = false -> PyStr.basename (d ++ "/" ++ b) = b.
Proof.
  intros Hb. induction d as [|c d IH].
  - change (EmptyString ++ "/" ++ b) with (String "/" b).
    rewrite basename_cons. cbn [PyStr.has_slash]. cbn.
    by apply basename_fixed_iff.
  - rewrite append_cons, basename_cons.
    cbn [PyStr.has_slash]. rewrite has_slash_app.
    cbn [PyStr.has_slash String.append]. cbn. rewrite orb_true_r. cbn.
    rewrite orb_true_r. exact IH.
Qed.

(** X8: the alias map kept by a completer is well formed. A key contains no
    slash; its entry is not empty; every path of the entry is an addable
    path made of a directory part, a slash and the key, and every addable
    path of that form is in the entry. *)
Theorem alias_map_well_formed guess fs root rel addable cmds self b l :
  completer_init guess fs root rel addable cmds = inr self ->
  fname_to_rel_fnames self !! b = Some l ->
  PyStr.has_slash b = false
  /\ l <> []
  /\ (forall p, p ∈ l <-> p ∈ addable /\ exists d, p = d ++ "/" ++ b).
Proof.
  intros Hinit Hl.
  assert (PyStr.has_slash b = false) as Hb.
  { apply completer_init_fields in Hinit as (_ & Hd & _). rewrite Hd in Hl.
    eapply build_key_no_slash; eauto. }
  rewrite (completer_alias_lookup _ _ _ _ _ _ _ b Hinit) in Hl.
  destruct (aliases_of b addable) as [|q qs] eqn:Hal; [done |].
  injection Hl as <-. split; [done |]. split; [done |].
  intros p. rewrite <- Hal, elem_of_aliases_of. split.
  - intros (Hp & Hbase & Hne). split; [done |].
    rewrite <- Hbase. apply basename_decompose.
    destruct (PyStr.has_slash p) eqn:Hs; [done |].
    apply basename_fixed_iff in Hs. congruence.
  - intros (Hp & d & ->). split; [done |].
    split; [by apply basename_app_slash |].
    intros Heq. apply (f_equal PyStr.has_slash) in Heq.
    rewrite has_slash_app, Hb in Heq. cbn in Heq.
    by rewrite orb_true_r in Heq.
Qed.

Lemma alias_map_well_formed_witness :
  PyStr.has_slash "util.py" = false
  /\ ["src/util.py"; "test/util.py"] <> []
  /\ (forall p, p ∈ ["src/util.py"; "test/util.py"] <->
                p ∈ Sample.addable /\ exists d, p = d ++ "/" ++ "util.py").
Proof.
  apply (alias_map_well_formed Sample.guess ∅ EmptyString [] Sample.addable
           Sample.bare_commands Sample.completer "util.py").
  - reflexivity.
  - vm_compute. reflexivity.
Defined.

Lemma basename_app_has_slash a b :
  PyStr.has_slash b = true -> PyStr.basename (a ++ b) = PyStr.basename b.
Proof.
  intros Hb. induction a as [|c a IH]; [done |].
  rewrite append_cons, basename_cons.
  cbn [PyStr.has_slash]. by rewrite has_slash_app, Hb, !orb_true_r.
Qed.

Lemma basename_app_sep a b :
  PyStr.basename (a ++ "/" ++ b) = PyStr.basename b.
Proof.
  rewrite basename_app_has_slash by done.
  change ("/" ++ b) with (String "/" b). by rewrite basename_cons.
Qed.

Lemma endswith_decompose s p :
  PyStr.endswith s p = true -> exists a, s = a ++ p.
Proof.
  induction s as [|c s IH]; cbn [PyStr.endswith].
  - rewrite orb_false_r. intros ->%String.eqb_eq. by exists EmptyString.
  - intros [->%String.eqb_eq | Hs]%orb_true_iff; [by exists EmptyString |].
    destruct (IH Hs) as [a ->]. by exists (String c a).
Qed.

(** Joining a relative path to the root does not change its basename, so
    the name under which a file is read and lexed ends in the same file name
    as the path it is listed under. *)
Lemma basename_path_join (root rel_fname : string) :
  PyStr.basename (PyStr.path_join root rel_fname) = PyStr.basename rel_fname.
Proof.
  unfold PyStr.path_join.
  destruct (PyStr.startswith rel_fname "/"); [done |].
  destruct root as [|c root]; [done |]. cbn [PyStr.truthy negb orb].
  destruct (PyStr.endswith (String c root) "/") eqn:Hend.
  - apply endswith_decompose in Hend as [a ->].
    rewrite append_assoc. apply basename_app_sep.
  - apply basename_app_sep.
Qed.

(** ** Further properties of [get_input] *)

Section MoreInputFacts.

Variable guess_lexer_for_filename : string -> string -> option Lexer.

Local Abbreviation loop' := (get_input_loop guess_lexer_for_filename).
Local Abbreviation read := (get_input guess_lexer_for_filename).

Lemma get_input_loop_unfold fs root rel addable cmds lines inp multi :
  loop' fs root rel addable cmds lines inp multi
  = match completer_init guess_lexer_for_filename fs root rel addable cmds
    with
    | inl e => inl e
    | inr _ =>
        match lines with
        | [] => inl EOFError
        | line :: rest =>
            if String.eqb (PyStr.strip line) "{" && negb multi then
              loop' fs root rel addable cmds rest inp true
            else if String.eqb (PyStr.strip line) "}" && multi then
              inr (inp, rest)
            else if multi then
              loop' fs root rel addable cmds rest
                (inp ++ line ++ PyStr.nl) multi
            else inr (line, rest)
        end
    end.
Proof. by destruct lines. Qed.

(** X9: when the first line read does not trim to the opening delimiter it
    is the input, returned as typed, without trimming; this includes a
    first line that is the closing delimiter. The following lines are left
    unread and the echo of that line is appended to the transcript. *)
Theorem get_input_single_line self fs root rel addable cmds line rest :
  (forall f, f ∈ rel -> is_Some (fs !! PyStr.path_join root f)) ->
  PyStr.strip line <> "{" ->
  read self fs root rel addable cmds (line :: rest)
  = inr (line, rest,
         append_chat_history self (input_echo line) true false fs).
Proof.
  intros Hread Hopen.
  destruct (completer_init_readable guess_lexer_for_filename fs root rel
              addable cmds Hread) as [completer Hinit].
  unfold get_input. rewrite get_input_loop_unfold, Hinit.
  apply String.eqb_neq in Hopen. rewrite Hopen. cbn [andb negb].
  by rewrite andb_false_r.
Qed.

(** X10: a multiline input is only ended by a line that trims to the
    closing delimiter: when the lines run out before one is read, or when
    there is no line at all, the request ends with the error of the read
    and returns no input. *)
Theorem get_input_unterminated self fs root rel addable cmds body :
  (forall f, f ∈ rel -> is_Some (fs !! PyStr.path_join root f)) ->
  Forall (fun l => PyStr.strip l <> "}") body ->
  read self fs root rel addable cmds ("{" :: body) = inl EOFError
  /\ read self fs root rel addable cmds [] = inl EOFError.
Proof.
  intros Hread Hbody.
  destruct (completer_init_readable guess_lexer_for_filename fs root rel
              addable cmds Hread) as [completer Hinit].
  unfold get_input. split.
  - rewrite get_input_loop_unfold, Hinit.
    change (String.eqb (PyStr.strip "{") "{" && negb false) with true.
    cbv iota.
    assert (forall inp, loop' fs root rel addable cmds body inp true
                        = inl EOFError) as ->; [| done].
    induction Hbody as [|l body Hl Hbody IH]; intros inp;
      rewrite get_input_loop_unfold, Hinit; [done |].
    rewrite andb_false_r. apply String.eqb_neq in Hl. rewrite Hl.
    cbn [andb]. apply IH.
  - by rewrite get_input_loop_unfold, Hinit.
Qed.

(** X11: an in-context file that cannot be read makes every input request
    fail with the error of the read, before any line is taken from the
    input, whatever the lines are. *)
Theorem get_input_unreadable self fs root rel addable cmds f lines :
  f ∈ rel ->
  fs !! PyStr.path_join root f = None ->
  read self fs root rel addable cmds lines = inl OSError.
Proof.
  intros Hin Hnone. unfold get_input.
  rewrite get_input_loop_unfold. unfold completer_init.
  by rewrite (index_files_unreadable _ _ _ _ _ _ Hin Hnone).
Qed.

End MoreInputFacts.

Lemma get_input_single_line_witness :
  get_input Sample.guess Sample.logged Sample.repo "/repo" Sample.in_context
    Sample.addable Sample.bare_commands ["  } "; "next"]
  = inr ("  } ", ["next"],
         append_chat_history Sample.logged (input_echo "  } ") true false
           Sample.repo).
Proof.
  apply get_input_single_line.
  - intros f Hf. apply list_elem_of_In in Hf. simpl in Hf.
    destruct Hf as [<- | [<- | []]]; vm_compute; eauto.
  - vm_compute. discriminate.
Defined.

Lemma get_input_unterminated_witness :
  get_input Sample.guess Sample.logged Sample.repo "/repo" Sample.in_context
    Sample.addable Sample.bare_commands ["{"; "line1"; "{"]
  = inl EOFError.
Proof.
  refine (proj1 (get_input_unterminated Sample.guess Sample.logged
                   Sample.repo "/repo" Sample.in_context Sample.addable
                   Sample.bare_commands ["line1"; "{"] _ _)).
  - intros f Hf. apply list_elem_of_In in Hf. simpl in Hf.
    destruct Hf as [<- | [<- | []]]; vm_compute; eauto.
  - repeat constructor; vm_compute; discriminate.
Defined.

Lemma get_input_unreadable_witness :
  get_input Sample.guess Sample.logged Sample.repo "/repo"
    ["main.py"; "gone.py"] Sample.addable Sample.bare_commands ["hello"]
  = inl OSError.
Proof.
  apply (get_input_unreadable Sample.guess Sample.logged Sample.repo "/repo"
           ["main.py"; "gone.py"] Sample.addable Sample.bare_commands
           "gone.py").
  - by_computation.
  - vm_compute. reflexivity.
Defined.

(** ** Further properties of the transcript *)

Lemma splitlines_from_line cur l rest :
  no_linebreak l = true ->
  PyStr.splitlines_from false cur (l ++ PyStr.nl ++ rest)
  = (cur ++ l) :: PyStr.splitlines_from false EmptyString rest.
Proof.
  revert cur. induction l as [|c l IH]; intros cur Hl.
  - by rewrite append_nil_r.
  - cbn [no_linebreak] in Hl. apply andb_true_iff in Hl as [Hc Hl].
    apply negb_true_iff in Hc. rewrite append_cons.
    cbn [PyStr.splitlines_from andb]. rewrite Hc, IH by done.
    by rewrite append_assoc.
Qed.

Lemma splitlines_from_last cur l :
  no_linebreak l = true -> l <> EmptyString ->
  PyStr.splitlines_from false cur l = [cur ++ l].
Proof.
  revert cur. induction l as [|c l IH]; intros cur Hl Hne; [done |].
  cbn [no_linebreak] in Hl. apply andb_true_iff in Hl as [Hc Hl].
  apply negb_true_iff in Hc.
  cbn [PyStr.splitlines_from andb]. rewrite Hc.
  destruct l as [|c' l'].
  - cbn [PyStr.splitlines_from].
    by destruct cur.
  - rewrite IH by done. by rewrite append_assoc.
Qed.

Lemma splitlines_multiline_text body :
  Forall (fun l => no_linebreak l = true) body ->
  PyStr.splitlines (multiline_text body) = body.
Proof.
  unfold PyStr.splitlines. induction 1 as [|l body Hl Hbody IH]; [done |].
  cbn [multiline_text]. by rewrite splitlines_from_line, IH.
Qed.

Lemma multiline_text_truthy l body :
  PyStr.truthy (multiline_text (l :: body)) = true.
Proof.
  cbn [multiline_text]. destruct l; [done |]. by rewrite append_cons.
Qed.

(** X12: the echo of an input lists its lines. For a multiline input whose
    body lines hold no line boundary, splitting the input gives the body
    back, and the echo is a newline followed by the body lines, each behind
    the marker [####], joined by soft breaks. A single line without a line
    boundary is echoed behind one marker, and the empty input is echoed as
    the placeholder, which is written as the marker, the placeholder and a
    soft break. *)
Theorem input_echo_lines (body : list string) (line : string) :
  (Forall (fun l => no_linebreak l = true) body ->
   PyStr.splitlines (multiline_text body) = body
   /\ (body <> [] ->
       input_echo (multiline_text body)
       = PyStr.nl ++ "#### "
         ++ PyStr.join ("  " ++ PyStr.nl ++ "#### ") body))
  /\ (no_linebreak line = true -> line <> EmptyString ->
      input_echo line = PyStr.nl ++ "#### " ++ line)
  /\ input_echo EmptyString = PyStr.nl ++ "#### <blank>"
  /\ chat_history_text (input_echo EmptyString) true false
     = PyStr.nl ++ "#### <blank>  " ++ PyStr.nl.
Proof.
  split; [| split; [| split]].
  - intros Hbody. split; [by apply splitlines_multiline_text |].
    intros Hne. unfold input_echo.
    destruct body as [|l body]; [done |].
    rewrite multiline_text_truthy.
    by rewrite splitlines_multiline_text.
  - intros Hl Hne. unfold input_echo.
    destruct line as [|c line]; [done |]. cbn [PyStr.truthy].
    unfold PyStr.splitlines. by rewrite splitlines_from_last.
  - reflexivity.
  - reflexivity.
Qed.

Lemma input_echo_lines_witness :
  input_echo ("line1" ++ PyStr.nl ++ "line2" ++ PyStr.nl)
  = PyStr.nl ++ "#### line1  " ++ PyStr.nl ++ "#### line2"
  /\ input_echo "hello" = PyStr.nl ++ "#### hello".
Proof.
  destruct (input_echo_lines ["line1"; "line2"] "hello") as (Hbody & Hline & _).
  split.
  - apply Hbody; [repeat constructor | discriminate].
  - apply Hline; [reflexivity | discriminate].
Defined.

Lemma chat_history_text_plain_nl t :
  chat_history_text (t ++ PyStr.nl) false false = t ++ PyStr.nl.
Proof. unfold chat_history_text. by rewrite endswith_app_nl. Qed.

Lemma lookup_file_append_ne path q data (fs : filesystem) :
  path <> q -> file_append path data fs !! q = fs !! q.
Proof. intros Hne. unfold file_append. by apply lookup_insert_ne. Qed.

(** X13: the transcript is only ever appended to, in call order, and no
    other file is touched: after two appends the destination holds what it
    held, then the first entry, then the second; every other path of the
    file system reads as before. *)
Theorem transcript_appends_in_order pr y path (fs : filesystem)
    t1 l1 b1 t2 l2 b2 :
  let self := mkInputOutput pr y (Some path) in
  let fs' := append_chat_history self t2 l2 b2
               (append_chat_history self t1 l1 b1 fs) in
  fs' !! path
  = Some (default EmptyString (fs !! path)
          ++ chat_history_text t1 l1 b1 ++ chat_history_text t2 l2 b2)
  /\ (forall q, q <> path -> fs' !! q = fs !! q).
Proof.
  intros self fs'. subst fs' self. unfold append_chat_history.
  cbn [chat_history_file]. split.
  - rewrite !lookup_file_append. cbn [default from_option id].
    unfold id. by rewrite append_assoc.
  - intros q Hq. by rewrite !lookup_file_append_ne.
Qed.

Lemma transcript_appends_in_order_witness :
  append_chat_history Sample.logged "second" false false
    (append_chat_history Sample.logged "first" true true Sample.repo)
  !! "/repo/notes" = Some "plain text".
Proof.
  etrans.
  - apply (proj2 (transcript_appends_in_order true false "chat.md"
                    Sample.repo "first" true true "second" false false)).
    discriminate.
  - reflexivity.
Defined.

Lemma rstrip_app_blank s w :
  PyStr.all_space w = true -> PyStr.rstrip (s ++ w) = PyStr.rstrip s.
Proof.
  intros Hw. apply rstrip_empty_iff in Hw.
  induction s as [|c s IH]; [done |].
  rewrite append_cons. cbn [PyStr.rstrip]. by rewrite IH.
Qed.

(** X14: without blockquote the formatting is idempotent: text that has
    been formatted, with or without linebreak, is left as it is when it is
    formatted again with the same flags. With blockquote it is not, as the
    marker is added again. *)
Theorem chat_history_text_idempotent (txt : string) (linebreak : bool) :
  chat_history_text (chat_history_text txt linebreak false) linebreak false
  = chat_history_text txt linebreak false
  /\ chat_history_text (chat_history_text "a" linebreak true) linebreak true
     <> chat_history_text "a" linebreak true.
Proof.
  split; [| by destruct linebreak].
  destruct linebreak.
  - assert (forall t, chat_history_text t true false
                      = PyStr.rstrip t ++ "  " ++ PyStr.nl) as Hform.
    { intros t. unfold chat_history_text.
      rewrite <- append_assoc, endswith_app_nl. done. }
    rewrite !Hform. by rewrite rstrip_app_blank, rstrip_idemp.
  - pose proof (chat_history_text_ends_nl txt false false) as Hnl.
    apply endswith_decompose in Hnl as [a ->].
    apply chat_history_text_plain_nl.
Qed.

Lemma chat_history_text_blank_quoted txt :
  PyStr.all_space txt = true ->
  chat_history_text txt true true = ">  " ++ PyStr.nl.
Proof.
  intros Hs%strip_empty_iff. unfold chat_history_text. by rewrite Hs.
Qed.

(** X15: the assistant's output is written trimmed, with one newline before
    it and two after it, and nothing else is added; without a destination
    nothing is written. *)
Theorem ai_output_transcript pr y path (content : string) (fs : filesystem) :
  ai_output (mkInputOutput pr y (Some path)) content fs !! path
  = Some (default EmptyString (fs !! path)
          ++ PyStr.nl ++ PyStr.strip content ++ PyStr.nl ++ PyStr.nl)
  /\ ai_output (mkInputOutput pr y None) content fs = fs.
Proof.
  split; [| done]. unfold ai_output, append_chat_history.
  cbn [chat_history_file]. rewrite lookup_file_append.
  replace (PyStr.nl ++ PyStr.strip content ++ PyStr.nl ++ PyStr.nl)
    with ((PyStr.nl ++ PyStr.strip content ++ PyStr.nl) ++ PyStr.nl)
    by (by rewrite !append_assoc).
  by rewrite chat_history_text_plain_nl.
Qed.

(** X16: [tool] called without a message writes nothing. Called with
    messages it records them joined by single spaces and trimmed, as a
    quoted line with a soft break; when the joined messages are blank it
    still records a line, the bare quote marker with the soft break, where
    [tool_error] records nothing. The [log_only] flag does not change what
    is recorded. *)
Theorem tool_transcript (self : InputOutput) (messages : list string)
    (log_only : bool) (fs : filesystem) :
  tool self [] log_only fs = fs
  /\ (messages <> [] ->
      tool self messages log_only fs
      = append_chat_history self (PyStr.join " " messages) true true fs
      /\ (PyStr.all_space (PyStr.join " " messages) = false ->
          chat_history_text (PyStr.join " " messages) true true
          = "> " ++ PyStr.strip (PyStr.join " " messages) ++ "  " ++ PyStr.nl)
      /\ (PyStr.all_space (PyStr.join " " messages) = true ->
          chat_history_text (PyStr.join " " messages) true true
          = ">  " ++ PyStr.nl
          /\ tool_error self (PyStr.join " " messages) fs = fs))
  /\ tool self messages true fs = tool self messages false fs.
Proof.
  split; [done |]. split; [| done].
  intros Hne. destruct messages as [|m ms]; [done |].
  split; [apply append_chat_history_strip |]. split.
  - apply chat_history_text_quoted.
  - intros Hblank. split; [by apply chat_history_text_blank_quoted |].
    unfold tool_error. by rewrite truthy_strip, Hblank.
Qed.

Lemma tool_transcript_witness :
  tool Sample.logged ["Added"; "main.py "] false Sample.repo
  = append_chat_history Sample.logged "Added main.py " true true Sample.repo
  /\ chat_history_text "Added main.py " true true
     = "> Added main.py  " ++ PyStr.nl
  /\ chat_history_text (PyStr.join " " [" "; " "]) true true
     = ">  " ++ PyStr.nl.
Proof.
  destruct (tool_transcript Sample.logged ["Added"; "main.py "] false
              Sample.repo) as (_ & Hsome & _).
  destruct (Hsome ltac:(discriminate)) as (Hrec & Htext & _).
  destruct (tool_transcript Sample.logged [" "; " "] false Sample.repo)
    as (_ & Hblank & _).
  destruct (Hblank ltac:(discriminate)) as (_ & _ & Hbare).
  split; [exact Hrec |]. split.
  - apply Htext. vm_compute. reflexivity.
  - apply Hbare. vm_compute. reflexivity.
Defined.

Lemma lower_char_y c :
  Ascii.eqb (PyStr.lower_char c) "y" = bool_decide (c = "y"%char \/ c = "Y"%char).
Proof.
  destruct c as [[] [] [] [] [] [] [] []]; vm_compute; reflexivity.
Qed.

Lemma startswith_nil s : PyStr.startswith s EmptyString = true.
Proof. by destruct s. Qed.

Lemma strip_first_char s c l :
  PyStr.lstrip s = String c l -> exists r, PyStr.strip s = String c r.
Proof.
  intros Hl. unfold PyStr.strip. rewrite Hl.
  pose proof (lstrip_head s) as Hh. rewrite Hl in Hh.
  exact (rstrip_head (String c l) Hh).
Qed.

(** X17: the answer of [confirm_ask]. With the [yes] flag set it is always
    true and the prompt's answer is not looked at. Otherwise a blank
    response gives no answer at all ([None]), and any other response is
    judged by its first character that is not whitespace: true exactly when
    that character is [y] or [Y]. *)
Theorem confirm_ask_answer (self : InputOutput) (question answer : string)
    (fs : filesystem) :
  (yes self = true -> fst (confirm_ask self question answer fs) = Some true)
  /\ (yes self = false -> PyStr.all_space answer = true ->
      fst (confirm_ask self question answer fs) = None)
  /\ (yes self = false ->
      forall c rest, PyStr.lstrip answer = String c rest ->
      fst (confirm_ask self question answer fs)
      = Some (bool_decide (c = "y"%char \/ c = "Y"%char))).
Proof.
  unfold confirm_ask. split; [| split].
  - by intros ->.
  - intros -> Hblank. rewrite truthy_strip, Hblank. cbn [negb].
    by rewrite orb_true_r.
  - intros -> c rest Hl.
    destruct (strip_first_char _ _ _ Hl) as [r Hr]. rewrite Hr.
    destruct answer as [|a answer]; [done |].
    cbn [PyStr.truthy negb orb fst PyStr.lower PyStr.startswith].
    by rewrite lower_char_y, startswith_nil, andb_true_r.
Qed.

Lemma confirm_ask_answer_witness :
  fst (confirm_ask (mkInputOutput true true None) "ok?" "no" ∅) = Some true
  /\ fst (confirm_ask Sample.logged "ok?" "  " ∅) = None
  /\ fst (confirm_ask Sample.logged "ok?" "  Yes please" ∅) = Some true
  /\ fst (confirm_ask Sample.logged "ok?" "maybe" ∅) = Some false.
Proof.
  split; [| split; [| split]].
  - apply (proj1 (confirm_ask_answer _ "ok?" "no" ∅)). reflexivity.
  - apply (proj1 (proj2 (confirm_ask_answer Sample.logged "ok?" "  " ∅)));
      reflexivity.
  - apply (proj2 (proj2 (confirm_ask_answer Sample.logged "ok?"
                           "  Yes please" ∅)) eq_refl "Y"%char "es please").
    reflexivity.
  - apply (proj2 (proj2 (confirm_ask_answer Sample.logged "ok?" "maybe" ∅))
             eq_refl "m"%char "aybe").
    reflexivity.
Defined.

(** X18: constructing an [InputOutput] with a destination appends the
    session header to it: a newline, the line
    [# aider chat started at] followed by the time stamp, and a blank line,
    with nothing added; what the file held before is kept in front of it.
    Without a destination nothing is written. The object keeps the
    arguments it was given. *)
Theorem io_init_header pr y path (current_time : string) (fs : filesystem) :
  snd (io_init pr y (Some path) current_time fs) !! path
  = Some (default EmptyString (fs !! path)
          ++ PyStr.nl ++ "# aider chat started at " ++ current_time
          ++ PyStr.nl ++ PyStr.nl)
  /\ (forall q, q <> path ->
                snd (io_init pr y (Some path) current_time fs) !! q = fs !! q)
  /\ snd (io_init pr y None current_time fs) = fs
  /\ fst (io_init pr y (Some path) current_time fs)
     = mkInputOutput pr y (Some path).
Proof.
  unfold io_init, append_chat_history. cbn [snd fst chat_history_file].
  replace (PyStr.nl ++ "# aider chat started at " ++ current_time
           ++ PyStr.nl ++ PyStr.nl)
    with ((PyStr.nl ++ "# aider chat started at " ++ current_time
           ++ PyStr.nl) ++ PyStr.nl)
    by (by rewrite !append_assoc).
  rewrite chat_history_text_plain_nl.
  split; [apply lookup_file_append |].
  split; [| done]. intros q Hq. by apply lookup_file_append_ne.
Qed.

Lemma io_init_header_witness :
  snd (io_init true false (Some "chat.md") "2023-05-12 10:00:00" Sample.repo)
  !! "/repo/notes" = Some "plain text".
Proof.
  rewrite (proj1 (proj2 (io_init_header true false "chat.md"
                           "2023-05-12 10:00:00" Sample.repo))
             "/repo/notes" ltac:(discriminate)).
  reflexivity.
Defined.

(** ** Delimiter lines *)

Section DelimiterFacts.

Variable guess_lexer_for_filename : string -> string -> option Lexer.

Lemma get_input_loop_until_close fs root rel addable cmds self
    body close rest inp :
  completer_init guess_lexer_for_filename fs root rel addable cmds
  = inr self ->
  Forall (fun l => PyStr.strip l <> "}") body ->
  PyStr.strip close = "}" ->
  get_input_loop guess_lexer_for_filename fs root rel addable cmds
    (body ++ close :: rest)%list inp true
  = inr (inp ++ multiline_text body, rest).
Proof.
  intros Hinit Hbody Hclose. revert inp.
  induction Hbody as [|l body Hl Hbody IH]; intros inp;
    cbn [app multiline_text]; rewrite get_input_loop_unfold, Hinit.
  - rewrite Hclose. cbn. by rewrite append_nil_r.
  - rewrite andb_false_r. apply String.eqb_neq in Hl. rewrite Hl.
    cbn [andb]. rewrite IH. by rewrite !append_assoc.
Qed.

(** X19: the delimiter lines are recognised after trimming: any first line
    that trims to the opening brace starts a multiline input and any later
    line that trims to the closing brace ends it, whatever whitespace
    surrounds the brace; neither line is part of the input. A line that
    trims to the opening brace inside the body is an ordinary body line. *)
Theorem get_input_delimiters_trimmed self fs root rel addable cmds
    open body close rest :
  (forall f, f ∈ rel -> is_Some (fs !! PyStr.path_join root f)) ->
  PyStr.strip open = "{" ->
  Forall (fun l => PyStr.strip l <> "}") body ->
  PyStr.strip close = "}" ->
  get_input guess_lexer_for_filename self fs root rel addable cmds
    (open :: body ++ close :: rest)%list
  = inr (multiline_text body, rest,
         append_chat_history self (input_echo (multiline_text body))
           true false fs).
Proof.
  intros Hread Hopen Hbody Hclose.
  destruct (completer_init_readable guess_lexer_for_filename fs root rel
              addable cmds Hread) as [completer Hinit].
  unfold get_input. rewrite get_input_loop_unfold, Hinit, Hopen.
  change (String.eqb "{" "{" && negb false) with true. cbv iota.
  by rewrite (get_input_loop_until_close _ _ _ _ _ _ _ _ _ _
                Hinit Hbody Hclose).
Qed.

End DelimiterFacts.

Lemma get_input_delimiters_trimmed_witness :
  get_input Sample.guess Sample.logged Sample.repo "/repo" Sample.in_context
    Sample.addable Sample.bare_commands [" { "; "a"; "{"; "  }"; "next"]
  = inr ("a" ++ PyStr.nl ++ "{" ++ PyStr.nl, ["next"],
         append_chat_history Sample.logged
           (input_echo (multiline_text ["a"; "{"])) true false Sample.repo).
Proof.
  refine (get_input_delimiters_trimmed Sample.guess Sample.logged Sample.repo
            "/repo" Sample.in_context Sample.addable Sample.bare_commands
            " { " ["a"; "{"] "  }" ["next"] _ _ _ _).
  - intros f Hf. apply list_elem_of_In in Hf. simpl in Hf.
    destruct Hf as [<- | [<- | []]]; vm_compute; eauto.
  - vm_compute. reflexivity.
  - repeat constructor; vm_compute; discriminate.
  - vm_compute. reflexivity.
Defined.
